(** * RegistryClient: a shallow embedding of [src/registry.ts]

    The client talks to a docker registry through the [request] library.
    Every method of the class returns a promise and settles it from inside
    the callbacks of the HTTP requests it issues.  The embedding keeps that
    shape: a method is a function of the replies the transport will deliver
    (in the order the requests are issued) and yields the list of requests
    sent, the final state of the promise and the exception, if any, that
    escaped a callback.

    Node built-ins the class calls are modelled as follows:
    - [crypto.createHash('sha256')]: module [SHA256] below (FIPS 180-4);
    - [Buffer#toString('base64')], [digest('hex')]: [base64], [hex];
    - [JSON.parse], [JSON.stringify], [url.resolve]: fields of the
      [Platform] class, left abstract. *)

From Stdlib Require Import ZArith List Lia.
From Stdlib Require Import Strings.Byte Strings.Ascii Strings.String.
From Stdlib Require Import PrimFloat.
From stdpp Require Import base option list gmap strings pretty.
Import ListNotations.

Local Open Scope string_scope.
Local Open Scope list_scope.
Local Open Scope Z_scope.

(** ** Buffers and JavaScript strings *)

(** A [Buffer] is a sequence of bytes.  A JavaScript string is represented by
    its UTF-8 encoding, so that [Buffer.from(s)] and [buf + ''] are the two
    directions of the same byte-wise conversion. *)
Definition Buffer : Type := list byte.

Definition Buffer_from (s : string) : Buffer := String.list_byte_of_string s.
Definition Buffer_toString (b : Buffer) : string := String.string_of_list_byte b.
Definition Buffer_length (b : Buffer) : Z := Z.of_nat (length b).
Definition Buffer_concat (bs : list Buffer) : Buffer := concat bs.

Definition byte_to_Z (b : byte) : Z := Z.of_N (Byte.to_N b).
Definition byte_of_Z (z : Z) : byte :=
  match Byte.of_N (Z.to_N (z mod 256)) with
  | Some b => b
  | None => x00
  end.

(** [digest('hex')] and [toString('hex')]: two lowercase digits per byte. *)
Definition hex_digit (n : Z) : ascii :=
  match String.get (Z.to_nat n) "0123456789abcdef" with
  | Some c => c
  | None => "0"%char
  end.

Fixpoint hex (b : Buffer) : string :=
  match b with
  | [] => ""
  | x :: rest =>
      let n := byte_to_Z x in
      String (hex_digit (n / 16)) (String (hex_digit (n mod 16)) (hex rest))
  end.

(** [toString('base64')]: RFC 4648 alphabet, with padding. *)
Definition base64_char (n : Z) : ascii :=
  match String.get (Z.to_nat n)
          "ABCDEFGHIJKLMNOPQRSTUVWXYZabcdefghijklmnopqrstuvwxyz0123456789+/" with
  | Some c => c
  | None => "="%char
  end.

Fixpoint base64_bytes (b : list Z) : string :=
  match b with
  | [] => ""
  | [x] =>
      String (base64_char (x / 4))
        (String (base64_char ((x mod 4) * 16)) "==")
  | [x; y] =>
      String (base64_char (x / 4))
        (String (base64_char ((x mod 4) * 16 + y / 16))
           (String (base64_char ((y mod 16) * 4)) "="))
  | x :: y :: z :: rest =>
      String (base64_char (x / 4))
        (String (base64_char ((x mod 4) * 16 + y / 16))
           (String (base64_char ((y mod 16) * 4 + z / 64))
              (String (base64_char (z mod 64)) (base64_bytes rest))))
  end.

Definition base64 (b : Buffer) : string := base64_bytes (map byte_to_Z b).

(** ** SHA-256

    Modelled from FIPS 180-4: [crypto] is Node's, not this repository's.
    Words are 32-bit integers held in [Z], reduced after every addition. *)
Module SHA256.

Definition word (x : Z) : Z := x mod 2 ^ 32.

Definition rotr (n x : Z) : Z :=
  Z.lor (Z.shiftr x n) (word (Z.shiftl x (32 - n))).
Definition shr (n x : Z) : Z := Z.shiftr x n.
Definition compl (x : Z) : Z := Z.lxor x (2 ^ 32 - 1).

Definition Ch (x y z : Z) : Z := Z.lxor (Z.land x y) (Z.land (compl x) z).
Definition Maj (x y z : Z) : Z :=
  Z.lxor (Z.lxor (Z.land x y) (Z.land x z)) (Z.land y z).
Definition Sum0 (x : Z) : Z := Z.lxor (Z.lxor (rotr 2 x) (rotr 13 x)) (rotr 22 x).
Definition Sum1 (x : Z) : Z := Z.lxor (Z.lxor (rotr 6 x) (rotr 11 x)) (rotr 25 x).
Definition sig0 (x : Z) : Z := Z.lxor (Z.lxor (rotr 7 x) (rotr 18 x)) (shr 3 x).
Definition sig1 (x : Z) : Z := Z.lxor (Z.lxor (rotr 17 x) (rotr 19 x)) (shr 10 x).

(** The round constants are the first 32 bits of the fractional parts of
    the cube roots of the first 64 primes, the initial hash value those of
    the square roots of the first 8. *)
Definition primes : list Z :=
  [2; 3; 5; 7; 11; 13; 17; 19; 23; 29; 31; 37; 41; 43; 47; 53;
   59; 61; 67; 71; 73; 79; 83; 89; 97; 101; 103; 107; 109; 113; 127; 131;
   137; 139; 149; 151; 157; 163; 167; 173; 179; 181; 191; 193; 197; 199;
   211; 223; 227; 229; 233; 239; 241; 251; 257; 263; 269; 271; 277; 281;
   283; 293; 307; 311].

(** Integer cube root, one bit at a time from bit [bits - 1] down. *)
Fixpoint cbrt_from (bits : nat) (n r : Z) : Z :=
  match bits with
  | O => r
  | S b =>
      let c := r + 2 ^ Z.of_nat b in
      if c * c * c <=? n then cbrt_from b n c else cbrt_from b n r
  end.

Definition K : list Z :=
  Eval vm_compute in map (fun p => word (cbrt_from 36 (p * 2 ^ 96) 0)) primes.
Definition H0 : list Z :=
  Eval vm_compute in map (fun p => word (Z.sqrt (p * 2 ^ 64))) (firstn 8 primes).

(** Padding: a 1 bit, zeros up to 56 mod 64 bytes, the bit length on 64 bits. *)
Definition be_bytes (n : nat) (x : Z) : list Z :=
  map (fun i => Z.shiftr x (8 * Z.of_nat i) mod 256) (rev (seq 0 n)).

Definition pad (msg : list Z) : list Z :=
  let l := Z.of_nat (length msg) in
  msg ++ [128] ++ repeat 0 (Z.to_nat ((- (l + 9)) mod 64)) ++ be_bytes 8 (8 * l).

Fixpoint words (bs : list Z) : list Z :=
  match bs with
  | b0 :: b1 :: b2 :: b3 :: rest =>
      (b0 * 2 ^ 24 + b1 * 2 ^ 16 + b2 * 2 ^ 8 + b3) :: words rest
  | _ => []
  end.

Fixpoint blocks (n : nat) (ws : list Z) : list (list Z) :=
  match n with
  | O => []
  | S n' => firstn 16 ws :: blocks n' (skipn 16 ws)
  end.

(** Message schedule; [w] holds the words computed so far, latest first. *)
Fixpoint schedule (n : nat) (w : list Z) : list Z :=
  match n with
  | O => w
  | S n' =>
      let wt := word (sig1 (nth 1 w 0) + nth 6 w 0 + sig0 (nth 14 w 0) + nth 15 w 0) in
      schedule n' (wt :: w)
  end.

Definition round (s : list Z) (kw : Z * Z) : list Z :=
  match s with
  | [a; b; c; d; e; f; g; h] =>
      let t1 := word (h + Sum1 e + Ch e f g + fst kw + snd kw) in
      let t2 := word (Sum0 a + Maj a b c) in
      [word (t1 + t2); a; b; c; word (d + t1); e; f; g]
  | _ => s
  end.

Definition compress (hs : list Z) (block : list Z) : list Z :=
  let w := rev (schedule 48 (rev block)) in
  let s := fold_left round (combine K w) hs in
  map (fun p => word (fst p + snd p)) (combine hs s).

Definition digest_words (msg : list Z) : list Z :=
  let ws := words (pad msg) in
  fold_left compress (blocks (length ws / 16) ws) H0.

Definition sha256 (msg : Buffer) : Buffer :=
  map byte_of_Z (flat_map (be_bytes 4) (digest_words (map byte_to_Z msg))).

End SHA256.

#[global] Arguments SHA256.sha256 : simpl never.

(** ** JavaScript values *)

#[local] Set Warnings "-register-all".

(** What [JSON.parse] returns and [JSON.stringify] takes.  An object is the
    list of its own properties; a number is an IEEE 754 double. *)
Inductive json : Type :=
  | JNull
  | JBool (b : bool)
  | JNumber (x : float)
  | JString (s : string)
  | JArray (items : list json)
  | JObject (fields : list (string * json)).

(** Errors: [new Error(msg)], the [TypeError] of a property read on [null] or
    [undefined] (message as V8 words it), and the [SyntaxError] of
    [JSON.parse].  An error reported by the transport is any value of the type. *)
Inductive JsError : Type :=
  | Error (message : string)
  | TypeError (message : string)
  | SyntaxError (message : string).

(** Truthiness, as [if (v)], [!v], [a && b] and [c ? x : y] test it;
    [None] stands for [undefined]. *)
Definition truthy (v : option json) : bool :=
  match v with
  | None | Some JNull => false
  | Some (JBool b) => b
  | Some (JNumber x) => negb (is_zero x || is_nan x)
  | Some (JString EmptyString) => false
  | Some (JString _) | Some (JArray _) | Some (JObject _) => true
  end.

Definition truthy_string (s : option string) : bool :=
  match s with
  | None | Some EmptyString => false
  | Some _ => true
  end.

Definition truthy_number (n : option Z) : bool :=
  match n with
  | None | Some 0 => false
  | Some _ => true
  end.

(** [v + ''] and [`${v}`] for a value that may be [undefined]. *)
Definition to_string (s : option string) : string :=
  match s with
  | Some s => s
  | None => "undefined"
  end.

Definition Buffer_to_string (b : option Buffer) : string :=
  to_string (Buffer_toString <$> b).

Fixpoint own_property (fields : list (string * json)) (name : string) : option json :=
  match fields with
  | [] => None
  | (k, v) :: rest => if String.eqb k name then Some v else own_property rest name
  end.

(** [v.name] for a name no prototype defines (such as [config]): a
    [TypeError] on [null], the own property of an object, [undefined] on
    anything else. *)
Definition get_property (v : json) (name : string) : JsError + option json :=
  match v with
  | JNull => inl (TypeError ("Cannot read property '" +:+ name +:+ "' of null"))
  | JObject fields => inr (own_property fields name)
  | _ => inr None
  end.

(** Built-ins of the platform that are not modelled further. *)
Class Platform : Type := {
  (** [JSON.parse(text)]: the value, or the error it throws. *)
  JSON_parse : string -> JsError + json;
  (** [JSON.stringify(value)] *)
  JSON_stringify : json -> string;
  (** [url.resolve(from, to)] *)
  url_resolve : string -> string -> string
}.

(** [crypto.createHash('sha256')]: the hash object holds what [update] fed
    it; [digest('hex')] hashes it. *)
Definition Hash : Type := Buffer.
Definition createHash : Hash := [].
Definition update (h : Hash) (b : Buffer) : Hash := h ++ b.
Definition digest_hex (h : Hash) : string := hex (SHA256.sha256 h).

(** ** The transport: [request] *)

Inductive Method : Type := GET | HEAD | POST | PUT | PATCH.

Inductive HeaderValue : Type :=
  | HString (s : string)
  | HNumber (n : Z).

(** One call of [request]: its options, and [payload], the bytes written to
    the request ([req.end(buf)], [src.pipe(req)]; empty otherwise). *)
Record Request : Type := {
  method : Method;
  url : string;
  req_headers : list (string * HeaderValue);
  followRedirect : option bool;
  payload : Buffer
}.

(** [res.statusCode] and [res.headers] (names in lower case, as Node gives
    them). *)
Record Response : Type := {
  statusCode : Z;
  headers : gmap string string
}.

(** What the transport delivers for one request.  [request] calls back with
    [(err)] alone on failure and with [(null, res, body)] on completion; as
    events these are ['error'] and ['response']. *)
Inductive Reply : Type :=
  | Failure (err : JsError)
  | Success (res : Response) (body : Buffer).

(** ** Promises and runs *)

Inductive Settled (A : Type) : Type :=
  | Resolved (value : A)
  | Rejected (reason : JsError).
Arguments Resolved {A} value.
Arguments Rejected {A} reason.

(** [None] is a pending promise; only the first [resolve] or [reject] counts. *)
Definition Promise (A : Type) : Type := option (Settled A).

Definition resolve {A} (v : A) (p : Promise A) : Promise A :=
  match p with
  | None => Some (Resolved v)
  | Some _ => p
  end.

Definition reject {A} (e : JsError) (p : Promise A) : Promise A :=
  match p with
  | None => Some (Rejected e)
  | Some _ => p
  end.

(** The outcome of a method call: the requests issued, in order; the promise
    once nothing more can happen; the exception that left a callback
    uncaught, if one did. *)
Record Run (A : Type) : Type := {
  sent : list Request;
  promise : Promise A;
  uncaught : option JsError
}.
Arguments sent {A} _.
Arguments promise {A} _.
Arguments uncaught {A} _.

Definition done {A} (p : Promise A) : Run A :=
  {| sent := []; promise := p; uncaught := None |}.

Definition throw {A} (p : Promise A) (e : JsError) : Run A :=
  {| sent := []; promise := p; uncaught := Some e |}.

(** Issue [r]; the handler [k] runs on the next reply of [inbox], if there
    is one, with the replies still to come. *)
Definition send {A} (r : Request) (inbox : list Reply)
    (k : Reply -> list Reply -> Run A) : Run A :=
  match inbox with
  | [] => {| sent := [r]; promise := None; uncaught := None |}
  | reply :: rest =>
      let run := k reply rest in
      {| sent := r :: sent run; promise := promise run; uncaught := uncaught run |}
  end.

(** [request(options, (err, res, body) => ...)] *)
Definition request {A} (r : Request) (inbox : list Reply)
    (callback : option JsError -> option Response -> option Buffer ->
                list Reply -> Run A) : Run A :=
  send r inbox (fun reply rest =>
    match reply with
    | Failure err => callback (Some err) None None rest
    | Success res body => callback None (Some res) (Some body) rest
    end).

(** Reading a property of [res] when [res] is [undefined]. *)
Definition undefined_has_no (name : string) : JsError :=
  TypeError ("Cannot read property '" +:+ name +:+ "' of undefined").

(** ** RegistryClient *)

(** Modelled from the spec: [DockerAuthResult] is declared in
    [credentials-helper], which is not among the sources.  The credential
    is a bearer token or a user name and a secret; [authHeader] reads the
    fields [token], [Username] and [Secret]. *)
Record DockerAuthResult : Type := {
  token : option string;
  Username : option string;
  Secret : option string
}.

Record RegistryClient : Type := {
  _auth : DockerAuthResult;
  _registry : string;
  _repository : string
}.

Definition authHeader (this : RegistryClient) : string :=
  if truthy_string (token (_auth this)) then
    "Bearer " +:+ to_string (token (_auth this))
  else
    "Basic " +:+
    base64 (Buffer_from (to_string (Username (_auth this)) +:+ ":" +:+
                         to_string (Secret (_auth this)))).

Definition manifest_media_type : string :=
  "application/vnd.docker.distribution.manifest.v2+json".

Definition unexpected_status (res : Response) (tail : string) : JsError :=
  Error ("unexpected status code " +:+ pretty (statusCode res) +:+ tail).

Section Methods.
Context `{Platform}.
Variable this : RegistryClient.

(** *** tags *)
Definition tags (inbox : list Reply) : Run json :=
  request
    {| method := GET;
       url := "https://" +:+ _registry this +:+ "/v2/" +:+ _repository this +:+
              "/tags/list";
       req_headers := [("Authorization", HString (authHeader this));
                       ("Accept", HString manifest_media_type)];
       followRedirect := None;
       payload := [] |}
    inbox
    (fun err res body _ =>
       match err with
       | Some err => done (reject err None)
       | None =>
           match JSON_parse (Buffer_to_string body) with
           | inr parsed => done (resolve parsed None)
           | inl e => done (reject e None)
           end
       end).

(** *** manifest *)
Definition manifest (tag : string) (inbox : list Reply) : Run json :=
  let url := "https://" +:+ _registry this +:+ "/v2/" +:+ _repository this +:+
             "/manifests/" +:+ tag in
  request
    {| method := GET;
       url := url;
       req_headers := [("Authorization", HString (authHeader this));
                       ("Accept", HString manifest_media_type)];
       followRedirect := None;
       payload := [] |}
    inbox
    (fun err res body _ =>
       match err with
       | Some err => done (reject err None)
       | None =>
           (* try { ... } catch (e) { reject(e) } *)
           match JSON_parse (Buffer_to_string body) with
           | inl e => done (reject e None)
           | inr parsed =>
               match res with
               | None => done (reject (undefined_has_no "statusCode") None)
               | Some res =>
                   let unexpected :=
                     unexpected_status res
                       (" from docker registry. response " +:+ Buffer_to_string body) in
                   if statusCode res =? 200 then
                     match get_property parsed "config" with
                     | inl e => done (reject e None)
                     | inr config =>
                         if truthy config then done (resolve parsed None)
                         else done (reject unexpected None)
                     end
                   else done (reject unexpected None)
               end
           end
       end).

(** *** manifestUpload *)
Inductive Tag : Type :=
  | TagFalse
  | TagName (name : string).

Inductive Manifest : Type :=
  | ManifestBuffer (b : Buffer)
  | ManifestObject (o : json).

Record ManifestUploadResult : Type := {
  mu_status : Z;
  mu_digest : string;
  mu_body : option Buffer
}.

Definition manifestBuf (manifest : Manifest) : Buffer :=
  match manifest with
  | ManifestBuffer b => b
  | ManifestObject o => Buffer_from (JSON_stringify o)
  end.

Definition manifestUpload (tag : Tag) (manifest : Manifest) (inbox : list Reply)
  : Run ManifestUploadResult :=
  let manifestBuf := manifestBuf manifest in
  let digest := "sha256:" +:+ digest_hex (update createHash manifestBuf) in
  let tag :=
    match tag with
    | TagFalse | TagName EmptyString => digest
    | TagName name => name
    end in
  request
    {| method := PUT;
       url := "https://" +:+ _registry this +:+ "/v2/" +:+ _repository this +:+
              "/manifests/" +:+ tag;
       req_headers := [("Authorization", HString (authHeader this));
                       ("content-type", HString manifest_media_type)];
       followRedirect := None;
       payload := manifestBuf |}
    inbox
    (fun err res body _ =>
       match err with
       | Some err => done (reject err None)
       | None =>
           match res with
           | None => throw None (undefined_has_no "statusCode")
           | Some res =>
               if negb (statusCode res =? 200) && negb (statusCode res =? 201) then
                 done (reject (unexpected_status res (" " +:+ Buffer_to_string body)) None)
               else
                 done (resolve {| mu_status := statusCode res;
                                  mu_digest := digest;
                                  mu_body := body |} None)
           end
       end).

(** *** blobExists *)
Definition blobExists (digest : string) (inbox : list Reply) : Run bool :=
  let url := "https://" +:+ _registry this +:+ "/v2/" +:+ _repository this +:+
             "/blobs/" +:+ digest in
  request
    {| method := HEAD;
       url := url;
       req_headers := [("Authorization", HString (authHeader this))];
       followRedirect := None;
       payload := [] |}
    inbox
    (fun err res _ _ =>
       (* if (err) reject(err);  -- and on to the next statement *)
       let p := match err with
                | Some err => reject err None
                | None => None
                end in
       match res with
       | None => throw p (undefined_has_no "statusCode")
       | Some res => done (resolve (statusCode res =? 200) p)
       end).

(** *** blob *)

(** What [blob] resolves with: the body, or with [stream] the response,
    a [Readable] over [content], paused. *)
Inductive BlobResult : Type :=
  | BlobBuffer (body : option Buffer)
  | BlobReadable (res : Response) (content : Buffer) (paused : bool).

Definition blob_request (url : string) : Request :=
  {| method := GET;
     url := url;
     req_headers := [("Authorization", HString (authHeader this))];
     followRedirect := Some false;
     payload := [] |}.

(** [fetch(url)], with the counter [loop] of the enclosing scope as it
    stands when the call is made.  Every hop consumes one reply. *)
Fixpoint fetch (stream : bool) (inbox : list Reply) (loop : nat) (url : string)
  {struct inbox} : Run BlobResult :=
  if (loop =? 5)%nat then
    done (reject (Error ("redirect looped 5 times " +:+ url)) None)
  else
    (* loop is now S loop *)
    let opts := blob_request url in
    if stream then
      send opts inbox (fun reply rest =>
        match reply with
        | Failure err => done (reject err None)
        | Success res body =>
            if truthy_string (headers res !! "location") then
              fetch stream rest (S loop)
                (url_resolve url (to_string (headers res !! "location")))
            else if negb (statusCode res =? 200) then
              done (reject (unexpected_status res " streaming blob") None)
            else
              done (resolve (BlobReadable res body true) None)
        end)
    else
      request opts inbox (fun err res body rest =>
        match err with
        | Some err => done (reject err None)
        | None =>
            match res with
            | None => throw None (undefined_has_no "headers")
            | Some res =>
                if truthy_string (headers res !! "location") then
                  fetch stream rest (S loop)
                    (url_resolve url (to_string (headers res !! "location")))
                else if negb (statusCode res =? 200) then
                  done (reject
                          (unexpected_status res (" " +:+ Buffer_to_string body)) None)
                else
                  done (resolve (BlobBuffer body) None)
            end
        end).

Definition blob (digest : string) (stream : bool) (inbox : list Reply)
  : Run BlobResult :=
  let url := "https://" +:+ _registry this +:+ "/v2/" +:+ _repository this +:+
             "/blobs/" +:+ digest in
  fetch stream inbox 0%nat url.

(** *** upload *)
Inductive Blob : Type :=
  | BufferBlob (b : Buffer)
  | ReadableBlob (chunks : list Buffer).

Record UploadResult : Type := {
  contentLength : Z;
  digest : string
}.

(** Everything the source will write: what [blob.pipe(req)] or
    [req.end(blob)] puts on the wire. *)
Definition blob_bytes (blob : Blob) : Buffer :=
  match blob with
  | BufferBlob b => b
  | ReadableBlob chunks => Buffer_concat chunks
  end.

(** The ['data'] listener of the chunked path, on the pair
    [(hash, contentLength)]. *)
Definition on_data (st : Hash * Z) (b : Buffer) : Hash * Z :=
  (update (fst st) b, snd st + Buffer_length b).

Definition upload_url (uuid : option string) : string :=
  "https://" +:+ _registry this +:+ "/v2/" +:+ _repository this +:+
  "/blobs/uploads/" +:+ to_string uuid.

(** The arguments after the first statement of [upload]: a [Buffer] fills
    in a missing length and a missing digest, a stream is only paused. *)
Definition known_length (blob : Blob) (contentLength : option Z) : option Z :=
  match blob with
  | ReadableBlob _ => contentLength
  | BufferBlob b =>
      if negb (truthy_number contentLength) then Some (Buffer_length b)
      else contentLength
  end.

Definition known_digest (blob : Blob) (digest : option string) : option string :=
  match blob with
  | ReadableBlob _ => digest
  | BufferBlob b =>
      if negb (truthy_string digest) then
        Some ("sha256:" +:+ digest_hex (update createHash b))
      else digest
  end.

(** The PATCH request has been answered only after the source ended, so
    its callback sees the hash and the count of the whole payload. *)
Definition upload (blob : Blob) (contentLength : option Z) (digest : option string)
    (inbox : list Reply) : Run UploadResult :=
  let contentLength := known_length blob contentLength in
  let digest := known_digest blob digest in
  request
    {| method := POST;
       url := "https://" +:+ _registry this +:+ "/v2/" +:+ _repository this +:+
              "/blobs/uploads/";
       req_headers := [("Authorization", HString (authHeader this));
                       ("Content-Length", HNumber 0)];
       followRedirect := None;
       payload := [] |}
    inbox
    (fun err res body inbox =>
       match err with
       | Some err => done (reject err None)
       | None =>
       match res with
       | None => throw None (undefined_has_no "headers")
       | Some res =>
       let uuid := headers res !! "docker-upload-uuid" in
       if negb (truthy_string uuid) then
         done (reject
                 (Error "request to start upload did not provide uuid in header docker-upload-uuid.")
                 None)
       else if truthy_number contentLength && truthy_string digest then
         request
           {| method := PUT;
              url := upload_url uuid +:+ "?digest=" +:+ to_string digest;
              req_headers :=
                [("Authorization", HString (authHeader this));
                 ("Content-Length", HNumber (default 0 contentLength));
                 ("Content-Type", HString "application/octet-stream")];
              followRedirect := None;
              payload := blob_bytes blob |}
           inbox
           (fun err res body _ =>
              match err with
              | Some err => done (reject err None)
              | None =>
              match res with
              | None => throw None (undefined_has_no "statusCode")
              | Some res =>
                  if negb (statusCode res =? 201) then
                    done (reject (unexpected_status res " for upload.") None)
                  else
                    done (resolve
                            {| contentLength := default 0 contentLength + 0;
                               digest := to_string (headers res !! "docker-content-digest") |}
                            None)
              end
              end)
       else
         let contentLength := 0 in
         let hash := createHash in
         (* the writes that follow the request, seen as done when it is answered *)
         let '(hash, contentLength) :=
           match blob with
           | BufferBlob b => (update hash b, contentLength + Buffer_length b)
           | ReadableBlob chunks => fold_left on_data chunks (hash, contentLength)
           end in
         request
           {| method := PATCH;
              url := upload_url uuid;
              req_headers :=
                [("Authorization", HString (authHeader this));
                 ("Content-Type", HString "application/octet-stream")];
              followRedirect := None;
              payload := blob_bytes blob |}
           inbox
           (fun err res _ inbox =>
              match res with
              | None => throw None (undefined_has_no "headers")
              | Some res =>
              let uuid :=
                if truthy_string (headers res !! "docker-upload-uuid")
                then headers res !! "docker-upload-uuid"
                else uuid in
              match err with
              | Some err => done (reject err None)
              | None =>
              if negb (statusCode res =? 204) then
                done (reject (unexpected_status res " for patch upload") None)
              else
                let digest := "sha256:" +:+ digest_hex hash in
                request
                  {| method := PUT;
                     url := upload_url uuid +:+ "?digest=" +:+ digest;
                     req_headers :=
                       [("Authorization", HString (authHeader this));
                        ("Content-Length", HNumber 0);
                        ("Content-Type", HString "application/octet-stream")];
                     followRedirect := None;
                     payload := [] |}
                  inbox
                  (fun err res body _ =>
                     match err with
                     | Some err => done (reject err None)
                     | None =>
                     match res with
                     | None => throw None (undefined_has_no "statusCode")
                     | Some res =>
                         if negb (statusCode res =? 201) then
                           done (reject
                                   (unexpected_status res " for upload finalization")
                                   None)
                         else
                           done (resolve {| contentLength := contentLength;
                                            digest := digest |} None)
                     end
                     end)
              end
              end)
       end
       end).

(** *** mount *)
Definition mount (digest fromRepository : string) (inbox : list Reply)
  : Run string :=
  request
    {| method := POST;
       url := "https://" +:+ _registry this +:+ "/v2/" +:+ _repository this +:+
              "/blobs/uploads?mount=" +:+ digest +:+ "&from=" +:+ fromRepository;
       req_headers := [("Authorization", HString (authHeader this));
                       ("Content-Length", HNumber 0)];
       followRedirect := None;
       payload := [] |}
    inbox
    (fun err res body _ =>
       match err with
       | Some err => done (reject err None)
       | None =>
       match res with
       | None => throw None (undefined_has_no "statusCode")
       | Some res =>
           if negb (statusCode res =? 201) then
             done (reject
                     (Error ("mount failed for " +:+ digest +:+ " from " +:+
                             fromRepository +:+ " to " +:+ _repository this))
                     None)
           else done (resolve (Buffer_to_string body) None)
       end
       end).

End Methods.

(** ** Redirect chains

    Vocabulary for statements about [blob]: a reply redirects when its
    response carries a non-empty [location] header. *)

Definition is_redirect (reply : Reply) : bool :=
  match reply with
  | Success res _ => truthy_string (headers res !! "location")
  | Failure _ => false
  end.

Definition location_of (reply : Reply) : string :=
  match reply with
  | Success res _ => to_string (headers res !! "location")
  | Failure _ => EmptyString
  end.

(** The URLs requested, one per reply of [chain], starting from [url]. *)
Fixpoint visited `{Platform} (url : string) (chain : list Reply) : list string :=
  match chain with
  | [] => []
  | reply :: rest => url :: visited (url_resolve url (location_of reply)) rest
  end.

(** The URL the last reply of [chain] leads to. *)
Fixpoint follow `{Platform} (url : string) (chain : list Reply) : string :=
  match chain with
  | [] => url
  | reply :: rest => follow (url_resolve url (location_of reply)) rest
  end.

(** ** Sample values, for the examples below *)

Definition quote : string := String "034"%char EmptyString.

Definition text_config_null : string :=
  "{" +:+ quote +:+ "config" +:+ quote +:+ ":null}".
Definition text_manifest : string :=
  "{" +:+ quote +:+ "config" +:+ quote +:+ ":{}}".
Definition text_errors : string :=
  "{" +:+ quote +:+ "errors" +:+ quote +:+ ":[]}".

(** A platform for the examples.  [sample_parse] agrees with [JSON.parse] on
    the four texts it knows and on the texts of the examples that are not
    JSON; [sample_resolve] agrees with [url.resolve] when the location is an
    absolute URL; [sample_stringify] is right on the empty object. *)
Definition sample_parse (text : string) : JsError + json :=
  if String.eqb text text_config_null then inr (JObject [("config", JNull)])
  else if String.eqb text text_manifest then inr (JObject [("config", JObject [])])
  else if String.eqb text text_errors then inr (JObject [("errors", JArray [])])
  else if String.eqb text "null" then inr JNull
  else inl (SyntaxError "Unexpected token < in JSON at position 0").

Definition sample_stringify (v : json) : string := "{}".
Definition sample_resolve (from to : string) : string := to.

#[local] Instance sample_platform : Platform := {|
  JSON_parse := sample_parse;
  JSON_stringify := sample_stringify;
  url_resolve := sample_resolve
|}.

Definition client : RegistryClient :=
  {| _auth := {| token := Some "t0k3n"; Username := None; Secret := None |};
     _registry := "gcr.io";
     _repository := "project/image" |}.

Definition ok (status : Z) : Reply :=
  Success {| statusCode := status; headers := ∅ |} [].

Definition with_header (status : Z) (name value : string) : Reply :=
  Success {| statusCode := status; headers := {[ name := value ]} |} [].

Definition with_body (status : Z) (text : string) : Reply :=
  Success {| statusCode := status; headers := ∅ |} (Buffer_from text).

Definition started : Reply := with_header 202 "docker-upload-uuid" "session-1".

Definition connection_reset : JsError := Error "socket hang up".

Definition empty_digest : string :=
  "sha256:e3b0c44298fc1c149afbf4c8996fb92427ae41e4649b934ca495991b7852b855".

Definition redirect_to (location : string) : Reply :=
  with_header 302 "location" location.

Definition sample_chunks : list Buffer := [Buffer_from "ab"; Buffer_from "c"].

Definition abc_digest : string :=
  "sha256:ba7816bf8f01cfea414140de5dae2223b00361a396177a9cb410ff61f20015ad".

Definition a_digest : string :=
  "sha256:ca978112ca1bbdcafac231b39a23dc4da786eff8147c4e72b9807785afee48bb".

Definition two_redirects : list Reply :=
  [redirect_to "https://mirror/1"; redirect_to "https://mirror/2"].

Definition five_redirects : list Reply :=
  [redirect_to "https://mirror/1"; redirect_to "https://mirror/2";
   redirect_to "https://mirror/3"; redirect_to "https://mirror/4";
   redirect_to "https://mirror/5"].

(** ** Vocabulary for the properties of requests and digests *)

(** The first header of the request is [Authorization], with the value
    [authHeader] computes. *)
Definition authorized (this : RegistryClient) (r : Request) : Prop :=
  head (req_headers r) = Some ("Authorization", HString (authHeader this)).

Definition lower_hex (c : ascii) : bool :=
  existsb (Ascii.eqb c) (list_ascii_of_string "0123456789abcdef").

Fixpoint all_chars (p : ascii -> bool) (s : string) : bool :=
  match s with
  | EmptyString => true
  | String c rest => p c && all_chars p rest
  end.

(** Whether a promise is pending, resolved or rejected, its value aside. *)
Inductive State : Type := Pending | Fulfilled | Failed.

Definition state {A} (p : Promise A) : State :=
  match p with
  | None => Pending
  | Some (Resolved _) => Fulfilled
  | Some (Rejected _) => Failed
  end.

(** * Properties *)

(** ** Known answers

    SHA-256 on the examples of FIPS 180-4, base64 on a credential. *)
Example sha256_empty :
  hex (SHA256.sha256 (Buffer_from "")) =
  "e3b0c44298fc1c149afbf4c8996fb92427ae41e4649b934ca495991b7852b855".
Proof. vm_compute. reflexivity. Qed.

Example sha256_abc :
  hex (SHA256.sha256 (Buffer_from "abc")) =
  "ba7816bf8f01cfea414140de5dae2223b00361a396177a9cb410ff61f20015ad".
Proof. vm_compute. reflexivity. Qed.

Example sha256_two_blocks :
  hex (SHA256.sha256
         (Buffer_from "abcdbcdecdefdefgefghfghighijhijkijkljklmklmnlmnomnopnopq")) =
  "248d6a61d20638b8e5c026930c3e6039a33ce45964ff2167f6ecedd419db06c1".
Proof. vm_compute. reflexivity. Qed.

Example base64_known :
  base64 (Buffer_from "user:secret") = "dXNlcjpzZWNyZXQ=".
Proof. vm_compute. reflexivity. Qed.

(** ** tags *)

(** C10: [tags] resolves with the parsed body of any response it receives,
    whatever the status code, and rejects exactly when the transport
    reports an error or [JSON.parse] throws on the body. *)
Theorem tags_resolves_regardless_of_status `{Platform}
    (this : RegistryClient) (inbox : list Reply) :
  (forall res body rest v,
      inbox = Success res body :: rest ->
      JSON_parse (Buffer_toString body) = inr v ->
      promise (tags this inbox) = Some (Resolved v)) /\
  (forall e,
      promise (tags this inbox) = Some (Rejected e) <->
      (exists rest, inbox = Failure e :: rest) \/
      (exists res body rest,
          inbox = Success res body :: rest /\
          JSON_parse (Buffer_toString body) = inl e)).
Proof.
  split.
  - intros res body rest v -> Hparse. cbn. now rewrite Hparse.
  - intros e. destruct inbox as [|[err|res body] rest]; cbn.
    + split; [discriminate|]. intros [[? [=]]|(? & ? & ? & [=] & _)].
    + split.
      * intros [= ->]. left. now exists rest.
      * intros [[? [= ->]]|(? & ? & ? & [=] & _)]. reflexivity.
    + destruct (JSON_parse (Buffer_toString body)) as [e'|v] eqn:Hparse; cbn.
      * split.
        -- intros [= ->]. right. exists res, body, rest. now split.
        -- intros [[? [=]]|(? & ? & ? & [= <- <- _] & Hp)].
           rewrite Hparse in Hp. now injection Hp as ->.
      * split; [discriminate|].
        intros [[? [=]]|(? & ? & ? & [= <- <- _] & Hp)].
        rewrite Hparse in Hp. discriminate.
Qed.

(** A 500 response whose body is JSON resolves like a tag list. *)
Lemma tags_resolves_on_500 :
  promise (tags client [with_body 500 text_errors]) =
  Some (Resolved (JObject [("errors", JArray [])])).
Proof.
  apply (proj1 (tags_resolves_regardless_of_status client
                  [with_body 500 text_errors])
           {| statusCode := 500; headers := ∅ |} (Buffer_from text_errors) []);
    reflexivity.
Defined.

(** ** blobExists *)

(** C7: when [blobExists] receives a response, the promise resolves, to
    [true] if and only if the status is 200; a 404 resolves to [false] and
    nothing is rejected or thrown. *)
Theorem blobExists_true_iff_200
    (this : RegistryClient) (digest : string)
    (res : Response) (body : Buffer) (rest : list Reply) :
  let run := blobExists this digest (Success res body :: rest) in
  (exists b, promise run = Some (Resolved b) /\ (b = true <-> statusCode res = 200)) /\
  (statusCode res = 404 -> promise run = Some (Resolved false)) /\
  (forall e, promise run <> Some (Rejected e)) /\
  uncaught run = None.
Proof.
  cbn. repeat split.
  - exists (statusCode res =? 200). split; [reflexivity|]. apply Z.eqb_eq.
  - intros ->. reflexivity.
  - discriminate.
Qed.

(** ** manifest *)

(** C6, as the code has it: [manifest] resolves, with the parsed body, if and
    only if the status is 200 and the [config] property of the parsed body
    is truthy; it rejects with the error of [JSON.parse] when the body does
    not parse; it rejects with the unexpected-status error for any other
    status, and for a parsed body whose [config] is missing or falsy. *)
Theorem manifest_resolves_iff_200_and_truthy_config `{Platform}
    (this : RegistryClient) (tag : string)
    (res : Response) (body : Buffer) (rest : list Reply) :
  let run := manifest this tag (Success res body :: rest) in
  let text := Buffer_toString body in
  (forall v,
      promise run = Some (Resolved v) <->
      statusCode res = 200 /\ JSON_parse text = inr v /\
      exists config, get_property v "config" = inr config /\ truthy config = true) /\
  (forall e, JSON_parse text = inl e -> promise run = Some (Rejected e)) /\
  (forall v,
      JSON_parse text = inr v ->
      statusCode res <> 200 \/
      (exists config, get_property v "config" = inr config /\ truthy config = false) ->
      promise run =
      Some (Rejected (unexpected_status res
                        (" from docker registry. response " +:+ text)))).
Proof.
  cbn. unfold Buffer_to_string; cbn.
  destruct (JSON_parse (Buffer_toString body)) as [e|parsed] eqn:Hparse; cbn.
  { split; [|split]; [split; [discriminate|intros (_ & [=] & _)] | now intros ? [= ->] | intros ? [=]]. }
  destruct (Z.eqb_spec (statusCode res) 200) as [H200|H200]; cbn.
  2: { split; [|split]; [split; [discriminate|tauto] | intros ? [=] | reflexivity]. }
  destruct (get_property parsed "config") as [e|config] eqn:Hconfig; cbn.
  { split; [|split].
    - split; [discriminate|]. intros (_ & [= <-] & c & Hc & _). congruence.
    - intros ? [=].
    - intros v [= <-] [?|(c & Hc & _)]; congruence. }
  destruct (truthy config) eqn:Htruthy; cbn.
  - split; [|split].
    + intros v. split.
      * intros [= <-]. eauto.
      * now intros (_ & [= <-] & _).
    + intros ? [=].
    + intros v [= <-] [?|(c & Hc & Hf)]; congruence.
  - split; [|split].
    + intros v. split; [discriminate|].
      intros (_ & [= <-] & c & Hc & Ht). congruence.
    + intros ? [=].
    + reflexivity.
Qed.

(** A manifest with a [config] object, answered with 200, resolves. *)
Lemma manifest_resolves_sample :
  promise (manifest client "latest" [with_body 200 text_manifest]) =
  Some (Resolved (JObject [("config", JObject [])])).
Proof.
  apply (proj1 (manifest_resolves_iff_200_and_truthy_config client "latest"
                  {| statusCode := 200; headers := ∅ |}
                  (Buffer_from text_manifest) [])).
  split; [reflexivity|]. split; [reflexivity|].
  exists (Some (JObject [])). split; reflexivity.
Defined.

(** C6 as stated fails: a 200 response whose body has a [config] field
    holding [null] is rejected, and a 200 response whose body is [null] is
    rejected with a [TypeError], which is neither the unexpected-status
    error nor an error of [JSON.parse]. *)
Lemma manifest_rejects_200_with_null_config :
  (JSON_parse text_config_null = inr (JObject [("config", JNull)]) /\
   own_property [("config", JNull)] "config" = Some JNull /\
   promise (manifest client "latest" [with_body 200 text_config_null]) =
   Some (Rejected
           (unexpected_status {| statusCode := 200; headers := ∅ |}
              (" from docker registry. response " +:+ text_config_null)))) /\
  (JSON_parse "null" = inr JNull /\
   promise (manifest client "latest" [with_body 200 "null"]) =
   Some (Rejected (TypeError "Cannot read property 'config' of null"))).
Proof. vm_compute. repeat split. Qed.

(** ** manifestUpload *)

(** C8: without a tag the reference in the request path is the digest the
    client computed over the manifest bytes, with a tag it is the tag; the
    digest of the resolved result is that same local digest, hence equal for
    any two calls over the same bytes. *)
Theorem manifestUpload_reference_and_digest `{Platform}
    (this : RegistryClient) (manifest : Manifest) (inbox : list Reply) :
  let bytes := manifestBuf manifest in
  let local := "sha256:" +:+ hex (SHA256.sha256 bytes) in
  let path ref :=
    "https://" +:+ _registry this +:+ "/v2/" +:+ _repository this +:+
    "/manifests/" +:+ ref in
  (exists r,
      sent (manifestUpload this TagFalse manifest inbox) = [r] /\
      method r = PUT /\ url r = path local /\ payload r = bytes) /\
  (forall name, name <> "" ->
      exists r,
        sent (manifestUpload this (TagName name) manifest inbox) = [r] /\
        method r = PUT /\ url r = path name /\ payload r = bytes) /\
  (forall tag result,
      promise (manifestUpload this tag manifest inbox) = Some (Resolved result) ->
      mu_digest result = local) /\
  (forall that tag' manifest' inbox' result result',
      manifestBuf manifest' = bytes ->
      promise (manifestUpload this TagFalse manifest inbox) = Some (Resolved result) ->
      promise (manifestUpload that tag' manifest' inbox') = Some (Resolved result') ->
      mu_digest result = mu_digest result').
Proof.
  assert (Hdigest : forall that tag m box result,
             promise (manifestUpload that tag m box) = Some (Resolved result) ->
             mu_digest result = "sha256:" +:+ hex (SHA256.sha256 (manifestBuf m))).
  { intros that tag m box result.
    destruct box as [|[err|res body] rest]; cbn; try discriminate.
    destruct (negb (statusCode res =? 200) && negb (statusCode res =? 201));
      cbn; [discriminate|].
    now intros [= <-]. }
  cbn zeta. split; [|split; [|split]].
  - destruct inbox as [|[err|res body] rest]; cbn;
      try destruct (negb (statusCode res =? 200) && negb (statusCode res =? 201));
      (eexists; split; [reflexivity|repeat split]).
  - intros [|c name] Hname; [contradiction|].
    destruct inbox as [|[err|res body] rest]; cbn;
      try destruct (negb (statusCode res =? 200) && negb (statusCode res =? 201));
      (eexists; split; [reflexivity|repeat split]).
  - intros tag result. apply Hdigest.
  - intros that tag' manifest' inbox' result result' Hbytes Hrun Hrun'.
    rewrite (Hdigest _ _ _ _ _ Hrun), (Hdigest _ _ _ _ _ Hrun'), Hbytes.
    reflexivity.
Qed.

(** A manifest pushed without a tag and again under the tag [v1]. *)
Lemma manifestUpload_sample :
  exists r,
    sent (manifestUpload client (TagName "v1") (ManifestBuffer (Buffer_from "{}"))
            [ok 201]) = [r] /\
    method r = PUT /\
    url r = "https://gcr.io/v2/project/image/manifests/v1" /\
    payload r = Buffer_from "{}".
Proof.
  apply (proj1 (proj2 (manifestUpload_reference_and_digest client
                         (ManifestBuffer (Buffer_from "{}")) [ok 201])) "v1").
  discriminate.
Defined.

(** ** upload *)

(** The ['data'] listener hashes and counts what the stream emits: after
    the last chunk the hash has absorbed the concatenation of the chunks
    and the counter has grown by its length. *)
Lemma fold_on_data (chunks : list Buffer) (h : Hash) (n : Z) :
  fold_left on_data chunks (h, n) =
  (h ++ Buffer_concat chunks, n + Buffer_length (Buffer_concat chunks)).
Proof.
  revert h n. induction chunks as [|c chunks IH]; intros h n.
  - cbn. rewrite app_nil_r. f_equal. unfold Buffer_length; cbn. lia.
  - cbn [fold_left].
    change (on_data (h, n) c) with (update h c, n + Buffer_length c).
    rewrite IH. unfold update, Buffer_concat, Buffer_length; cbn [concat].
    rewrite <- app_assoc, !length_app. f_equal. lia.
Qed.

(** What the chunked path has hashed and counted when the PATCH request is
    answered. *)
Lemma chunked_hash_and_count (blob : Blob) :
  match blob with
  | BufferBlob b => (update createHash b, 0 + Buffer_length b)
  | ReadableBlob chunks => fold_left on_data chunks (createHash, 0)
  end = (blob_bytes blob, Buffer_length (blob_bytes blob)).
Proof.
  destruct blob as [b|chunks]; [reflexivity|].
  rewrite fold_on_data. reflexivity.
Qed.

(** A chunked upload that resolves has received three responses, with a
    session id, 204 and 201; it has sent the three requests of the protocol
    and resolves with what it hashed and counted itself. *)
Lemma upload_chunked_resolved (this : RegistryClient) (blob : Blob)
    (contentLength : option Z) (digest : option string)
    (inbox : list Reply) (result : UploadResult) :
  truthy_number (known_length blob contentLength) &&
  truthy_string (known_digest blob digest) = false ->
  promise (upload this blob contentLength digest inbox) = Some (Resolved result) ->
  exists r0 b0 r1 b1 r2 b2 rest initiate append finalize,
    inbox = Success r0 b0 :: Success r1 b1 :: Success r2 b2 :: rest /\
    truthy_string (headers r0 !! "docker-upload-uuid") = true /\
    statusCode r1 = 204 /\ statusCode r2 = 201 /\
    sent (upload this blob contentLength digest inbox) = [initiate; append; finalize] /\
    (method initiate = POST /\ payload initiate = []) /\
    (method append = PATCH /\
     url append = upload_url this (headers r0 !! "docker-upload-uuid") /\
     payload append = blob_bytes blob) /\
    (method finalize = PUT /\
     url finalize =
       upload_url this
         (if truthy_string (headers r1 !! "docker-upload-uuid")
          then headers r1 !! "docker-upload-uuid"
          else headers r0 !! "docker-upload-uuid") +:+
       "?digest=" +:+ "sha256:" +:+ hex (SHA256.sha256 (blob_bytes blob)) /\
     payload finalize = []) /\
    result = {| contentLength := Buffer_length (blob_bytes blob);
                digest := "sha256:" +:+ hex (SHA256.sha256 (blob_bytes blob)) |}.
Proof.
  intros Hchunked. unfold upload.
  destruct inbox as [|[e0|r0 b0] inbox]; cbn; try discriminate.
  destruct (truthy_string (headers r0 !! "docker-upload-uuid")) eqn:Huuid;
    cbn; [|discriminate].
  rewrite Hchunked. rewrite chunked_hash_and_count.
  destruct inbox as [|[e1|r1 b1] inbox]; cbn; try discriminate.
  destruct (Z.eqb_spec (statusCode r1) 204) as [H204|H204]; cbn; [|discriminate].
  destruct inbox as [|[e2|r2 b2] inbox]; cbn; try discriminate.
  destruct (Z.eqb_spec (statusCode r2) 201) as [H201|H201]; cbn; [|discriminate].
  intros [= <-].
  do 7 eexists. do 3 eexists.
  repeat split; try reflexivity; assumption.
Qed.

Lemma sha256_of_nothing : "sha256:" +:+ hex (SHA256.sha256 []) = empty_digest.
Proof. vm_compute. reflexivity. Qed.

(** C2: a chunked upload of a stream that resolves has sent, in its PATCH
    request, the bytes of the stream; its finalize request carries in
    [digest=] the SHA-256 the client computed over those bytes, whatever the
    responses said; and it resolves with the number of those bytes and that
    digest. *)
Theorem upload_chunked_digest_is_local (this : RegistryClient)
    (chunks : list Buffer) (contentLength : option Z) (digest : option string)
    (inbox : list Reply) (result : UploadResult) :
  truthy_number contentLength && truthy_string digest = false ->
  promise (upload this (ReadableBlob chunks) contentLength digest inbox) =
    Some (Resolved result) ->
  let transmitted := Buffer_concat chunks in
  let local := "sha256:" +:+ hex (SHA256.sha256 transmitted) in
  (exists initiate append finalize uuid,
      sent (upload this (ReadableBlob chunks) contentLength digest inbox) =
        [initiate; append; finalize] /\
      method append = PATCH /\ payload append = transmitted /\
      method finalize = PUT /\ payload finalize = [] /\
      url finalize = upload_url this uuid +:+ "?digest=" +:+ local) /\
  result = {| contentLength := Buffer_length transmitted; digest := local |}.
Proof.
  intros Hunknown Hresolved.
  destruct (upload_chunked_resolved this (ReadableBlob chunks) contentLength digest
              inbox result Hunknown Hresolved)
    as (r0 & b0 & r1 & b1 & r2 & b2 & rest & initiate & append & finalize &
        _ & _ & _ & _ & Hsent & _ & (Hpatch & _ & Hbytes) &
        (Hput & Hurl & Hempty) & Hresult).
  cbn zeta. split; [|exact Hresult].
  exists initiate, append, finalize. eexists.
  repeat split; eassumption.
Qed.

(** A stream of two chunks, [ab] and [c], against a registry that reports
    another digest: the result is the digest of [abc]. *)
Lemma upload_chunked_sample :
  {| contentLength := 3; digest := abc_digest |} =
  {| contentLength := Buffer_length (Buffer_concat sample_chunks);
     digest := "sha256:" +:+ hex (SHA256.sha256 (Buffer_concat sample_chunks)) |}.
Proof.
  apply (upload_chunked_digest_is_local client sample_chunks None None
           [started; ok 204; with_header 201 "docker-content-digest" "sha256:beef"]).
  - reflexivity.
  - vm_compute. reflexivity.
Defined.

(** C9: in a chunked upload whose PATCH request is answered with 204, the
    finalize request goes to the session id of the PATCH response when that
    response carries a [docker-upload-uuid] header, and to the session id of
    the initiate response when it carries none (or an empty one); the PATCH
    request itself goes to the session id of the initiate response. *)
Theorem upload_finalize_uses_rotated_session (this : RegistryClient) (blob : Blob)
    (contentLength : option Z) (digest : option string)
    (r0 : Response) (b0 : Buffer) (r1 : Response) (b1 : Buffer) (rest : list Reply) :
  truthy_number (known_length blob contentLength) &&
  truthy_string (known_digest blob digest) = false ->
  truthy_string (headers r0 !! "docker-upload-uuid") = true ->
  statusCode r1 = 204 ->
  let run :=
    upload this blob contentLength digest (Success r0 b0 :: Success r1 b1 :: rest) in
  let local := "sha256:" +:+ hex (SHA256.sha256 (blob_bytes blob)) in
  exists initiate append finalize,
    sent run = [initiate; append; finalize] /\
    method append = PATCH /\
    url append = upload_url this (headers r0 !! "docker-upload-uuid") /\
    method finalize = PUT /\
    (forall rotated,
        headers r1 !! "docker-upload-uuid" = Some rotated -> rotated <> "" ->
        url finalize = upload_url this (Some rotated) +:+ "?digest=" +:+ local) /\
    (headers r1 !! "docker-upload-uuid" = None \/
     headers r1 !! "docker-upload-uuid" = Some "" ->
     url finalize =
       upload_url this (headers r0 !! "docker-upload-uuid") +:+ "?digest=" +:+ local).
Proof.
  intros Hchunked Huuid H204. unfold upload. cbn.
  rewrite Huuid, Hchunked; cbn. rewrite chunked_hash_and_count.
  cbn. rewrite H204; cbn.
  assert (Hsent : forall fin (k : Reply -> list Reply -> Run UploadResult),
             (forall reply box, sent (k reply box) = []) ->
             sent (send fin rest k) = [fin]).
  { intros fin k Hk. destruct rest as [|reply box]; cbn; [reflexivity|].
    now rewrite Hk. }
  do 3 eexists. split.
  { do 2 f_equal. apply Hsent. intros [e|r b] box; cbn; [reflexivity|].
    now destruct (negb (statusCode r =? 201)). }
  repeat split.
  - intros rotated Hrot Hne. rewrite Hrot.
    destruct rotated; [contradiction|reflexivity].
  - intros [Hnone|Hempty]; [rewrite Hnone|rewrite Hempty]; reflexivity.
Qed.

(** The registry renames the session in its answer to PATCH. *)
Lemma upload_rotated_session_sample :
  exists initiate append finalize,
    sent (upload client (ReadableBlob sample_chunks) None None
            [started; with_header 204 "docker-upload-uuid" "session-2"]) =
      [initiate; append; finalize] /\
    url append = "https://gcr.io/v2/project/image/blobs/uploads/session-1" /\
    url finalize =
      "https://gcr.io/v2/project/image/blobs/uploads/session-2?digest=" +:+ abc_digest.
Proof.
  destruct (upload_finalize_uses_rotated_session client (ReadableBlob sample_chunks)
              None None
              {| statusCode := 202; headers := {[ "docker-upload-uuid" := "session-1" ]} |} []
              {| statusCode := 204; headers := {[ "docker-upload-uuid" := "session-2" ]} |} []
              [])
    as (initiate & append & finalize & Hsent & _ & Happend & _ & Hrotated & _);
    try (vm_compute; reflexivity).
  exists initiate, append, finalize.
  split; [exact Hsent|]. split; [exact Happend|].
  rewrite (Hrotated "session-2"); [|vm_compute; reflexivity|discriminate].
  vm_compute. reflexivity.
Defined.

(** C3 as stated fails: for a zero-length [Buffer] the length filled in is
    0, which the test [contentLength && digest] takes for a missing length,
    so the upload takes the chunked path and issues three requests. *)
Lemma upload_empty_buffer_not_two_requests :
  let run := upload client (BufferBlob []) None None [started; ok 204; ok 201] in
  promise run = Some (Resolved {| contentLength := 0; digest := empty_digest |}) /\
  map method (sent run) = [POST; PATCH; PUT] /\
  length (sent run) <> 2%nat.
Proof. vm_compute. repeat split; discriminate. Qed.

(** C3, as the code has it: uploading a zero-length [Buffer] with no length
    given (or 0) resolves only after exactly three requests, initiate, an
    append with an empty payload and finalize, and resolves with length 0
    and the SHA-256 of the empty string. *)
Theorem upload_empty_buffer_three_requests (this : RegistryClient)
    (contentLength : option Z) (digest : option string)
    (inbox : list Reply) (result : UploadResult) :
  truthy_number contentLength = false ->
  promise (upload this (BufferBlob []) contentLength digest inbox) =
    Some (Resolved result) ->
  (exists initiate append finalize,
      sent (upload this (BufferBlob []) contentLength digest inbox) =
        [initiate; append; finalize] /\
      method initiate = POST /\
      (method append = PATCH /\ payload append = []) /\
      method finalize = PUT) /\
  result = {| contentLength := 0; digest := empty_digest |}.
Proof.
  intros Hlength Hresolved.
  assert (Hchunked : truthy_number (known_length (BufferBlob []) contentLength) &&
                     truthy_string (known_digest (BufferBlob []) digest) = false).
  { cbn. now rewrite Hlength. }
  destruct (upload_chunked_resolved this (BufferBlob []) contentLength digest
              inbox result Hchunked Hresolved)
    as (r0 & b0 & r1 & b1 & r2 & b2 & rest & initiate & append & finalize &
        _ & _ & _ & _ & Hsent & (Hpost & _) & (Hpatch & _ & Hbytes) &
        (Hput & _ & _) & Hresult).
  split.
  - exists initiate, append, finalize. repeat split; assumption.
  - rewrite Hresult. cbn [blob_bytes]. now rewrite sha256_of_nothing.
Qed.

(** The three requests of an empty upload, and its result. *)
Lemma upload_empty_buffer_sample :
  (exists initiate append finalize,
      sent (upload client (BufferBlob []) None None [started; ok 204; ok 201]) =
        [initiate; append; finalize] /\
      method initiate = POST /\
      (method append = PATCH /\ payload append = []) /\
      method finalize = PUT) /\
  {| contentLength := 0; digest := empty_digest |} =
  {| contentLength := 0; digest := empty_digest |}.
Proof.
  apply (upload_empty_buffer_three_requests client None None
           [started; ok 204; ok 201]).
  - reflexivity.
  - vm_compute. reflexivity.
Defined.

(** The monolithic path: an upload with a known length and digest that
    resolves has sent two requests, the second with the whole content and
    the known digest in [digest=]; the digest it resolves with is the
    [docker-content-digest] header of the second response, as a string. *)
Lemma upload_monolithic_resolved (this : RegistryClient) (blob : Blob)
    (contentLength : option Z) (digest : option string)
    (inbox : list Reply) (result : UploadResult) :
  truthy_number (known_length blob contentLength) &&
  truthy_string (known_digest blob digest) = true ->
  promise (upload this blob contentLength digest inbox) = Some (Resolved result) ->
  exists r0 b0 r1 b1 rest initiate put,
    inbox = Success r0 b0 :: Success r1 b1 :: rest /\
    statusCode r1 = 201 /\
    sent (upload this blob contentLength digest inbox) = [initiate; put] /\
    method put = PUT /\
    url put =
      upload_url this (headers r0 !! "docker-upload-uuid") +:+ "?digest=" +:+
      to_string (known_digest blob digest) /\
    payload put = blob_bytes blob /\
    result =
      {| contentLength := default 0 (known_length blob contentLength) + 0;
         digest := to_string (headers r1 !! "docker-content-digest") |}.
Proof.
  intros Hknown. unfold upload.
  destruct inbox as [|[e0|r0 b0] inbox]; cbn; try discriminate.
  destruct (truthy_string (headers r0 !! "docker-upload-uuid")) eqn:Huuid;
    cbn; [|discriminate].
  rewrite Hknown.
  destruct inbox as [|[e1|r1 b1] inbox]; cbn; try discriminate.
  destruct (Z.eqb_spec (statusCode r1) 201) as [H201|H201]; cbn; [|discriminate].
  intros [= <-].
  do 7 eexists. repeat split; try reflexivity; assumption.
Qed.

(** C1 fails on the code: a one-byte [Buffer] is uploaded on the monolithic
    path, with the locally computed digest in the request; the registry
    answers 201 with another [docker-content-digest], and that header, not
    the local digest, is the digest of the result. *)
Theorem upload_monolithic_returns_registry_digest :
  let blob := BufferBlob (Buffer_from "a") in
  let run :=
    upload client blob None None
      [started; with_header 201 "docker-content-digest" "sha256:beef"] in
  known_digest blob None = Some a_digest /\
  map url (sent run) =
    ["https://gcr.io/v2/project/image/blobs/uploads/";
     "https://gcr.io/v2/project/image/blobs/uploads/session-1?digest=" +:+ a_digest] /\
  map payload (sent run) = [[]; Buffer_from "a"] /\
  promise run = Some (Resolved {| contentLength := 1; digest := "sha256:beef" |}) /\
  promise (upload client blob None None [started; ok 201]) =
    Some (Resolved {| contentLength := 1; digest := "undefined" |}).
Proof. vm_compute. repeat split. Qed.

(** C5 fails on the code at the PATCH step: the callback reads
    [res.headers] before it looks at [err]; when the transport reports an
    error there is no [res], the read throws, [reject] is never called and
    the promise stays pending. *)
Theorem upload_patch_error_never_settles :
  let run :=
    upload client (ReadableBlob sample_chunks) None None
      [started; Failure connection_reset] in
  promise run = None /\
  uncaught run = Some (TypeError "Cannot read property 'headers' of undefined") /\
  map method (sent run) = [POST; PATCH].
Proof. vm_compute. repeat split. Qed.

(** The other three steps do reject with the error of the transport. *)
Lemma upload_other_steps_reject (this : RegistryClient) (blob : Blob)
    (contentLength : option Z) (digest : option string)
    (e : JsError) (r0 : Response) (b0 : Buffer) (r1 : Response) (b1 : Buffer)
    (rest : list Reply) :
  let go := upload this blob contentLength digest in
  let known := truthy_number (known_length blob contentLength) &&
               truthy_string (known_digest blob digest) in
  promise (go (Failure e :: rest)) = Some (Rejected e) /\
  (truthy_string (headers r0 !! "docker-upload-uuid") = true ->
   (known = true ->
    promise (go (Success r0 b0 :: Failure e :: rest)) = Some (Rejected e)) /\
   (known = false -> statusCode r1 = 204 ->
    promise (go (Success r0 b0 :: Success r1 b1 :: Failure e :: rest)) =
      Some (Rejected e))).
Proof.
  cbn zeta. split; [reflexivity|]. intros Huuid. unfold upload. cbn.
  rewrite Huuid. cbn. split; intros ->; [reflexivity|].
  intros H204. rewrite chunked_hash_and_count. cbn. now rewrite H204.
Qed.

(** In general, at the PATCH step: whatever the source, an error of the
    transport leaves the promise pending. *)
Lemma upload_patch_error_pending (this : RegistryClient) (blob : Blob)
    (contentLength : option Z) (digest : option string)
    (e : JsError) (r0 : Response) (b0 : Buffer) (rest : list Reply) :
  truthy_number (known_length blob contentLength) &&
  truthy_string (known_digest blob digest) = false ->
  truthy_string (headers r0 !! "docker-upload-uuid") = true ->
  let run := upload this blob contentLength digest (Success r0 b0 :: Failure e :: rest) in
  promise run = None /\ uncaught run = Some (undefined_has_no "headers").
Proof.
  intros Hchunked Huuid. unfold upload. cbn.
  rewrite Huuid, Hchunked. cbn. rewrite chunked_hash_and_count. cbn.
  split; reflexivity.
Qed.

(** ** blob *)

Section Redirects.
Context `{Platform}.
Variable this : RegistryClient.
Variable stream : bool.

Lemma length_visited (chain : list Reply) :
  forall url, length (visited url chain) = length chain.
Proof.
  induction chain as [|reply chain IH]; intros url; cbn; [reflexivity|].
  now rewrite IH.
Qed.

Lemma fetch_gives_up (inbox : list Reply) (url : string) :
  fetch this stream inbox 5 url =
  done (reject (Error ("redirect looped 5 times " +:+ url)) None).
Proof. destruct inbox; reflexivity. Qed.

(** One hop: a redirecting reply is consumed, its request recorded, and
    [fetch] goes on at the resolved location with the counter one up. *)
Lemma fetch_redirect (reply : Reply) (inbox : list Reply) (loop : nat) (url : string) :
  is_redirect reply = true -> (loop < 5)%nat ->
  let next :=
    fetch this stream inbox (S loop) (url_resolve url (location_of reply)) in
  fetch this stream (reply :: inbox) loop url =
  {| sent := blob_request this url :: sent next;
     promise := promise next;
     uncaught := uncaught next |}.
Proof.
  intros Hredirect Hloop.
  destruct reply as [e|res body]; [discriminate|]. cbn in Hredirect.
  cbn [fetch]. destruct (Nat.eqb_spec loop 5) as [->|_]; [lia|].
  destruct stream; cbn; rewrite Hredirect; reflexivity.
Qed.

(** A non-redirecting 200 response ends the chase. *)
Lemma fetch_terminal (res : Response) (body : Buffer) (inbox : list Reply)
    (loop : nat) (url : string) :
  truthy_string (headers res !! "location") = false ->
  statusCode res = 200 -> (loop < 5)%nat ->
  fetch this stream (Success res body :: inbox) loop url =
  {| sent := [blob_request this url];
     promise := Some (Resolved (if stream then BlobReadable res body true
                                else BlobBuffer (Some body)));
     uncaught := None |}.
Proof.
  intros Hlocation H200 Hloop.
  cbn [fetch]. destruct (Nat.eqb_spec loop 5) as [->|_]; [lia|].
  destruct stream; cbn; rewrite Hlocation, H200; reflexivity.
Qed.

(** A chain of redirects, as long as the counter allows it, is followed
    to its end. *)
Lemma fetch_chain (chain : list Reply) :
  forall (inbox : list Reply) (loop : nat) (url : string),
    Forall (fun reply => is_redirect reply = true) chain ->
    (loop + length chain <= 5)%nat ->
    let next := fetch this stream inbox (loop + length chain) (follow url chain) in
    let run := fetch this stream (chain ++ inbox) loop url in
    sent run = map (blob_request this) (visited url chain) ++ sent next /\
    promise run = promise next /\
    uncaught run = uncaught next.
Proof.
  induction chain as [|reply chain IH]; intros inbox loop url Hchain Hloop.
  - cbn. rewrite Nat.add_0_r. repeat split.
  - inversion Hchain as [|? ? Hreply Hrest]; subst. cbn [length] in Hloop.
    cbn zeta. cbn [app]. rewrite fetch_redirect by (assumption || lia).
    cbn [sent promise uncaught visited follow map length].
    destruct (IH inbox (S loop) (url_resolve url (location_of reply)) Hrest)
      as (Hsent & Hpromise & Huncaught); [lia|].
    replace (loop + S (length chain))%nat with (S loop + length chain)%nat by lia.
    rewrite Hsent, Hpromise, Huncaught. repeat split.
Qed.

End Redirects.

(** C4: [blob] follows up to four redirects and resolves with the body (or,
    streaming, the paused response) of the 200 response that ends the chain,
    after one request per response; after five redirects it rejects with
    the redirect-loop error that names the location of the fifth, having
    issued five requests and not the sixth. *)
Theorem blob_redirect_limit `{Platform} (this : RegistryClient) (digest : string)
    (stream : bool) (chain : list Reply)
    (res : Response) (body : Buffer) (rest : list Reply) :
  Forall (fun reply => is_redirect reply = true) chain ->
  let start :=
    "https://" +:+ _registry this +:+ "/v2/" +:+ _repository this +:+
    "/blobs/" +:+ digest in
  ((length chain <= 4)%nat ->
   truthy_string (headers res !! "location") = false ->
   statusCode res = 200 ->
   let run := blob this digest stream (chain ++ Success res body :: rest) in
   promise run =
     Some (Resolved (if stream then BlobReadable res body true
                     else BlobBuffer (Some body))) /\
   map url (sent run) = visited start chain ++ [follow start chain] /\
   length (sent run) = S (length chain) /\
   uncaught run = None) /\
  (length chain = 5%nat ->
   let run := blob this digest stream (chain ++ rest) in
   promise run =
     Some (Rejected (Error ("redirect looped 5 times " +:+ follow start chain))) /\
   map url (sent run) = visited start chain /\
   length (sent run) = 5%nat).
Proof.
  intros Hchain start. split.
  - intros Hlength Hlocation H200 run.
    destruct (fetch_chain this stream chain (Success res body :: rest) 0 start Hchain)
      as (Hsent & Hpromise & Huncaught); [cbn; lia|].
    rewrite fetch_terminal in Hsent, Hpromise, Huncaught by (assumption || (cbn; lia)).
    cbn [sent promise uncaught] in Hsent, Hpromise, Huncaught.
    unfold run, blob. fold start.
    rewrite Hsent, Hpromise, Huncaught. repeat split.
    + rewrite map_app, map_map. cbn. now rewrite map_id.
    + rewrite length_app, length_map, length_visited. cbn. lia.
  - intros Hlength run.
    destruct (fetch_chain this stream chain rest 0 start Hchain)
      as (Hsent & Hpromise & Huncaught); [cbn; lia|].
    cbn [Nat.add] in Hsent, Hpromise, Huncaught.
    rewrite Hlength, fetch_gives_up in Hsent, Hpromise, Huncaught.
    cbn [sent promise uncaught done reject] in Hsent, Hpromise, Huncaught.
    unfold run, blob. fold start.
    rewrite Hsent, Hpromise. repeat split.
    + rewrite app_nil_r, map_map. cbn. now rewrite map_id.
    + now rewrite app_nil_r, length_map, length_visited.
Qed.

(** Two redirects and then [OK]; five redirects and then [OK]. *)
Lemma blob_redirect_limit_sample :
  promise (blob client "sha256:abc" false (two_redirects ++ [with_body 200 "OK"])) =
    Some (Resolved (BlobBuffer (Some (Buffer_from "OK")))) /\
  promise (blob client "sha256:abc" true (five_redirects ++ [with_body 200 "OK"])) =
    Some (Rejected (Error "redirect looped 5 times https://mirror/5")) /\
  length (sent (blob client "sha256:abc" true (five_redirects ++ [with_body 200 "OK"]))) =
    5%nat.
Proof.
  split.
  - apply (blob_redirect_limit client "sha256:abc" false two_redirects
             {| statusCode := 200; headers := ∅ |} (Buffer_from "OK") []).
    + repeat constructor.
    + cbn. lia.
    + vm_compute. reflexivity.
    + reflexivity.
  - destruct (proj2 (blob_redirect_limit client "sha256:abc" true five_redirects
                       {| statusCode := 200; headers := ∅ |} []
                       [with_body 200 "OK"] ltac:(repeat constructor)) eq_refl)
      as (Hpromise & _ & Hlength).
    split; [exact Hpromise|exact Hlength].
Defined.

(** * Further properties *)

(** ** The methods that issue one request *)

(** X1: [mount] issues one POST to the upload endpoint with the [mount] and
    [from] parameters; it resolves, with the body as a string, if and only
    if the response has status 201; any other status rejects with the
    mount-failed error that names the digest, the source repository and
    this repository; an error of the transport rejects with that error. *)
Theorem mount_resolves_iff_201 (this : RegistryClient)
    (digest fromRepository : string) (reply : Reply) (rest : list Reply) :
  let run := mount this digest fromRepository (reply :: rest) in
  (forall text,
      promise run = Some (Resolved text) <->
      exists res body,
        reply = Success res body /\ statusCode res = 201 /\
        text = Buffer_toString body) /\
  (forall res body,
      reply = Success res body -> statusCode res <> 201 ->
      promise run =
      Some (Rejected (Error ("mount failed for " +:+ digest +:+ " from " +:+
                             fromRepository +:+ " to " +:+ _repository this)))) /\
  (forall e, reply = Failure e -> promise run = Some (Rejected e)) /\
  (exists r,
      sent run = [r] /\ method r = POST /\ payload r = [] /\
      url r =
        "https://" +:+ _registry this +:+ "/v2/" +:+ _repository this +:+
        "/blobs/uploads?mount=" +:+ digest +:+ "&from=" +:+ fromRepository).
Proof.
  cbn zeta. destruct reply as [e|res body]; cbn.
  - split; [|split; [|split]].
    + intros text. split; [discriminate|]. intros (? & ? & [=] & _).
    + intros ? ? [=].
    + now intros ? [= ->].
    + eexists. repeat split.
  - destruct (Z.eqb_spec (statusCode res) 201) as [H201|H201]; cbn.
    + split; [|split; [|split]].
      * intros text. split.
        -- intros [= <-]. now exists res, body.
        -- now intros (? & ? & [= <- <-] & _ & ->).
      * intros ? ? [= <- <-] Hne. contradiction.
      * intros ? [=].
      * eexists. repeat split.
    + split; [|split; [|split]].
      * intros text. split; [discriminate|].
        intros (? & ? & [= <- <-] & ? & _). contradiction.
      * reflexivity.
      * intros ? [=].
      * eexists. repeat split.
Qed.

(** X2: [tags], [manifest], [manifestUpload], [blobExists] and [mount]
    never retry: whatever the transport answers, and whether it answers at
    all, each issues exactly one request. *)
Theorem single_request_methods_send_once `{Platform} (this : RegistryClient)
    (name digest fromRepository : string) (tag : Tag) (body : Manifest)
    (inbox : list Reply) :
  length (sent (tags this inbox)) = 1%nat /\
  length (sent (manifest this name inbox)) = 1%nat /\
  length (sent (manifestUpload this tag body inbox)) = 1%nat /\
  length (sent (blobExists this digest inbox)) = 1%nat /\
  length (sent (mount this digest fromRepository inbox)) = 1%nat.
Proof.
  destruct inbox as [|[e|res b] rest]; cbn; repeat split.
  - now destruct (JSON_parse (Buffer_toString b)).
  - destruct (JSON_parse (Buffer_toString b)) as [|parsed]; [reflexivity|].
    destruct (statusCode res =? 200); [|reflexivity].
    destruct (get_property parsed "config") as [|config]; [reflexivity|].
    now destruct (truthy config).
  - now destruct (negb (statusCode res =? 200) && negb (statusCode res =? 201)).
  - now destruct (negb (statusCode res =? 201)).
Qed.

(** X3: an error of the transport on that one request rejects the promise
    of [tags], [manifest], [manifestUpload] and [mount] with the very same
    error, and nothing escapes the callback. *)
Theorem transport_error_rejects_unchanged `{Platform} (this : RegistryClient)
    (name digest fromRepository : string) (tag : Tag) (body : Manifest)
    (e : JsError) (rest : list Reply) :
  let inbox := Failure e :: rest in
  (promise (tags this inbox) = Some (Rejected e) /\
   uncaught (tags this inbox) = None) /\
  (promise (manifest this name inbox) = Some (Rejected e) /\
   uncaught (manifest this name inbox) = None) /\
  (promise (manifestUpload this tag body inbox) = Some (Rejected e) /\
   uncaught (manifestUpload this tag body inbox) = None) /\
  (promise (mount this digest fromRepository inbox) = Some (Rejected e) /\
   uncaught (mount this digest fromRepository inbox) = None).
Proof. cbn. repeat split. Qed.

(** X4: [blobExists] has no [return] after [reject(err)]: on an error of
    the transport the promise is rejected with that error (it never
    resolves to [false]), and the callback then throws on
    [res.statusCode], [res] being undefined. *)
Theorem blobExists_transport_error (this : RegistryClient) (digest : string)
    (e : JsError) (rest : list Reply) :
  let run := blobExists this digest (Failure e :: rest) in
  promise run = Some (Rejected e) /\
  (forall b, promise run <> Some (Resolved b)) /\
  uncaught run = Some (undefined_has_no "statusCode").
Proof. cbn. repeat split. discriminate. Qed.

(** X5: [manifestUpload] resolves if and only if the response has status
    200 or 201, with that status, the response body and the locally
    computed digest; any other status rejects with the unexpected-status
    error that carries the status and the body. *)
Theorem manifestUpload_accepts_200_and_201 `{Platform} (this : RegistryClient)
    (tag : Tag) (manifest : Manifest)
    (res : Response) (body : Buffer) (rest : list Reply) :
  let run := manifestUpload this tag manifest (Success res body :: rest) in
  let accepted := statusCode res = 200 \/ statusCode res = 201 in
  (forall result,
      promise run = Some (Resolved result) <->
      accepted /\
      result = {| mu_status := statusCode res;
                  mu_digest := "sha256:" +:+ hex (SHA256.sha256 (manifestBuf manifest));
                  mu_body := Some body |}) /\
  (~ accepted ->
   promise run =
   Some (Rejected (unexpected_status res (" " +:+ Buffer_toString body)))).
Proof.
  cbn zeta. cbn.
  destruct (Z.eqb_spec (statusCode res) 200) as [H200|H200];
    destruct (Z.eqb_spec (statusCode res) 201) as [H201|H201]; cbn.
  - lia.
  - split.
    + intros result. split; [intros [= <-]; auto|]. now intros (_ & ->).
    + intros Hno. exfalso. auto.
  - split.
    + intros result. split; [intros [= <-]; auto|]. now intros (_ & ->).
    + intros Hno. exfalso. auto.
  - split.
    + intros result. split; [discriminate|]. intros ([?|?] & _); contradiction.
    + reflexivity.
Qed.

(** ** More on upload *)

(** X6: [upload] goes on after the initiate request exactly when its
    response carries a non-empty [docker-upload-uuid] header; the status of
    that response is never looked at.  Without the header the promise is
    rejected and no content is sent; with it, a second request follows
    whatever the status was. *)
Theorem upload_initiate_needs_session_id (this : RegistryClient) (blob : Blob)
    (contentLength : option Z) (digest : option string)
    (res : Response) (body : Buffer) (rest : list Reply) :
  let run := upload this blob contentLength digest (Success res body :: rest) in
  (truthy_string (headers res !! "docker-upload-uuid") = false ->
   promise run =
     Some (Rejected (Error "request to start upload did not provide uuid in header docker-upload-uuid.")) /\
   length (sent run) = 1%nat) /\
  (truthy_string (headers res !! "docker-upload-uuid") = true ->
   exists initiate next more,
     sent run = initiate :: next :: more /\
     payload initiate = [] /\
     payload next = blob_bytes blob /\
     (method next = PUT \/ method next = PATCH)).
Proof.
  cbn zeta. unfold upload. cbn. split; intros Huuid; rewrite Huuid; cbn.
  - split; reflexivity.
  - destruct (truthy_number (known_length blob contentLength) &&
              truthy_string (known_digest blob digest)).
    + destruct rest as [|reply rest]; cbn; do 3 eexists; repeat split; auto.
    + rewrite chunked_hash_and_count.
      destruct rest as [|reply rest]; cbn; do 3 eexists; repeat split; auto.
Qed.

(** X7: the chunked path succeeds when the registry plays its part: with a
    session id in the initiate response, 204 for the PATCH and 201 for the
    finalize PUT, the promise resolves with the number of bytes written and
    their SHA-256, after exactly three requests. *)
Theorem upload_chunked_succeeds (this : RegistryClient) (blob : Blob)
    (contentLength : option Z) (digest : option string)
    (r0 : Response) (b0 : Buffer) (r1 : Response) (b1 : Buffer)
    (r2 : Response) (b2 : Buffer) (rest : list Reply) :
  truthy_number (known_length blob contentLength) &&
  truthy_string (known_digest blob digest) = false ->
  truthy_string (headers r0 !! "docker-upload-uuid") = true ->
  statusCode r1 = 204 ->
  statusCode r2 = 201 ->
  let run :=
    upload this blob contentLength digest
      (Success r0 b0 :: Success r1 b1 :: Success r2 b2 :: rest) in
  promise run =
    Some (Resolved
            {| contentLength := Buffer_length (blob_bytes blob);
               digest := "sha256:" +:+ hex (SHA256.sha256 (blob_bytes blob)) |}) /\
  length (sent run) = 3%nat /\
  uncaught run = None.
Proof.
  intros Hchunked Huuid H204 H201. unfold upload. cbn.
  rewrite Huuid, Hchunked. cbn. rewrite chunked_hash_and_count. cbn.
  rewrite H204. cbn. rewrite H201. cbn. repeat split.
Qed.

(** A stream of two chunks goes through. *)
Lemma upload_chunked_succeeds_sample :
  promise (upload client (ReadableBlob sample_chunks) None None
             [started; ok 204; ok 201]) =
  Some (Resolved
          {| contentLength := Buffer_length (blob_bytes (ReadableBlob sample_chunks));
             digest := "sha256:" +:+
                       hex (SHA256.sha256 (blob_bytes (ReadableBlob sample_chunks))) |}).
Proof.
  apply (upload_chunked_succeeds client (ReadableBlob sample_chunks) None None
           {| statusCode := 202; headers := {[ "docker-upload-uuid" := "session-1" ]} |} []
           {| statusCode := 204; headers := ∅ |} []
           {| statusCode := 201; headers := ∅ |} [] []);
    vm_compute; reflexivity.
Defined.

(** X8: a response with another status than the one a step requires
    rejects the promise with the unexpected-status error of that step and
    ends the upload: after a PATCH answered otherwise than 204 no finalize
    request is sent. *)
Theorem upload_rejects_unexpected_status (this : RegistryClient) (blob : Blob)
    (contentLength : option Z) (digest : option string)
    (r0 : Response) (b0 : Buffer) (r1 : Response) (b1 : Buffer)
    (r2 : Response) (b2 : Buffer) (rest : list Reply) :
  truthy_string (headers r0 !! "docker-upload-uuid") = true ->
  let known :=
    truthy_number (known_length blob contentLength) &&
    truthy_string (known_digest blob digest) in
  let go := upload this blob contentLength digest in
  (known = true -> statusCode r1 <> 201 ->
   promise (go (Success r0 b0 :: Success r1 b1 :: rest)) =
     Some (Rejected (unexpected_status r1 " for upload.")) /\
   length (sent (go (Success r0 b0 :: Success r1 b1 :: rest))) = 2%nat) /\
  (known = false -> statusCode r1 <> 204 ->
   promise (go (Success r0 b0 :: Success r1 b1 :: rest)) =
     Some (Rejected (unexpected_status r1 " for patch upload")) /\
   length (sent (go (Success r0 b0 :: Success r1 b1 :: rest))) = 2%nat) /\
  (known = false -> statusCode r1 = 204 -> statusCode r2 <> 201 ->
   promise (go (Success r0 b0 :: Success r1 b1 :: Success r2 b2 :: rest)) =
     Some (Rejected (unexpected_status r2 " for upload finalization"))).
Proof.
  intros Huuid. cbn zeta. unfold upload. cbn. rewrite Huuid. cbn.
  split; [|split].
  - intros -> Hne. apply Z.eqb_neq in Hne. now rewrite Hne.
  - intros -> Hne. apply Z.eqb_neq in Hne. rewrite chunked_hash_and_count. cbn.
    now rewrite Hne.
  - intros -> H204 Hne. apply Z.eqb_neq in Hne. rewrite chunked_hash_and_count.
    cbn. rewrite H204. cbn. now rewrite Hne.
Qed.

(** A registry that answers the PATCH with 202. *)
Lemma upload_rejects_unexpected_status_sample :
  promise (upload client (ReadableBlob sample_chunks) None None
             [started; ok 202; ok 201]) =
    Some (Rejected (Error "unexpected status code 202 for patch upload")) /\
  length (sent (upload client (ReadableBlob sample_chunks) None None
                  [started; ok 202; ok 201])) = 2%nat.
Proof.
  assert (Huuid : truthy_string
                    (headers {| statusCode := 202;
                                headers := {[ "docker-upload-uuid" := "session-1" ]} |}
                     !! "docker-upload-uuid") = true)
    by (vm_compute; reflexivity).
  apply (proj1 (proj2 (upload_rejects_unexpected_status client
                         (ReadableBlob sample_chunks) None None
                         _ [] {| statusCode := 202; headers := ∅ |} []
                         {| statusCode := 201; headers := ∅ |} [] [ok 201] Huuid))).
  - reflexivity.
  - discriminate.
Defined.

(** X9: [upload] issues between one and three requests.  Its promise stays
    pending in two cases only: the transport never answered the last
    request sent, or it reported an error for the PATCH request, in which
    case the callback threw before it could reject. *)
Theorem upload_pending_only_when (this : RegistryClient) (blob : Blob)
    (contentLength : option Z) (digest : option string) (inbox : list Reply) :
  let run := upload this blob contentLength digest inbox in
  (1 <= length (sent run) <= 3)%nat /\
  (promise run = None ->
   (uncaught run = None /\ length (sent run) = S (length inbox)) \/
   (uncaught run = Some (undefined_has_no "headers") /\
    exists r0 b0 e rest, inbox = Success r0 b0 :: Failure e :: rest)) /\
  (forall e, uncaught run = Some e -> promise run = None).
Proof.
  cbn zeta. unfold upload.
  destruct inbox as [|[e0|r0 b0] inbox]; cbn.
  { repeat split; try lia; try discriminate. intros _. left. now split. }
  { repeat split; try lia; discriminate. }
  destruct (truthy_string (headers r0 !! "docker-upload-uuid")); cbn.
  2: { repeat split; try lia; discriminate. }
  destruct (truthy_number (known_length blob contentLength) &&
            truthy_string (known_digest blob digest)).
  - destruct inbox as [|[e1|r1 b1] inbox]; cbn.
    + repeat split; try lia; try discriminate. intros _. left. now split.
    + repeat split; try lia; discriminate.
    + destruct (negb (statusCode r1 =? 201)); cbn;
        repeat split; try lia; discriminate.
  - rewrite chunked_hash_and_count.
    destruct inbox as [|[e1|r1 b1] inbox]; cbn.
    + repeat split; try lia; try discriminate. intros _. left. now split.
    + repeat split; try lia; try discriminate.
      intros _. right. split; [reflexivity|]. now exists r0, b0, e1, inbox.
    + destruct (negb (statusCode r1 =? 204)); cbn.
      { repeat split; try lia; discriminate. }
      destruct inbox as [|[e2|r2 b2] inbox]; cbn.
      * repeat split; try lia; try discriminate. intros _. left. now split.
      * repeat split; try lia; discriminate.
      * destruct (negb (statusCode r2 =? 201)); cbn;
          repeat split; try lia; discriminate.
Qed.

(** X10: for a stream, only the bytes count, not how they are cut into
    chunks: two streams that emit the same bytes lead to the same requests
    and the same outcome. *)
Theorem upload_chunk_boundaries_do_not_matter (this : RegistryClient)
    (chunks chunks' : list Buffer)
    (contentLength : option Z) (digest : option string) (inbox : list Reply) :
  Buffer_concat chunks = Buffer_concat chunks' ->
  upload this (ReadableBlob chunks) contentLength digest inbox =
  upload this (ReadableBlob chunks') contentLength digest inbox.
Proof.
  intros Hsame. unfold upload. cbn [known_length known_digest blob_bytes].
  rewrite !fold_on_data, Hsame. reflexivity.
Qed.

(** The bytes [abc] as [ab], [c] and as [a], [bc]. *)
Lemma upload_chunk_boundaries_sample :
  upload client (ReadableBlob sample_chunks) None None [started; ok 204; ok 201] =
  upload client (ReadableBlob [Buffer_from "a"; Buffer_from "bc"]) None None
    [started; ok 204; ok 201].
Proof.
  apply (upload_chunk_boundaries_do_not_matter client sample_chunks
           [Buffer_from "a"; Buffer_from "bc"]).
  reflexivity.
Defined.

(** X11: on the monolithic path a length given by the caller is taken on
    trust: it is the [Content-Length] of the PUT request and the
    [contentLength] of the result, whatever the number of bytes the source
    holds; nothing is counted. *)
Theorem upload_monolithic_trusts_given_length (this : RegistryClient) (blob : Blob)
    (given : Z) (digest : option string)
    (r0 : Response) (b0 : Buffer) (r1 : Response) (b1 : Buffer) (rest : list Reply) :
  given <> 0 ->
  truthy_string (known_digest blob digest) = true ->
  truthy_string (headers r0 !! "docker-upload-uuid") = true ->
  statusCode r1 = 201 ->
  let run :=
    upload this blob (Some given) digest (Success r0 b0 :: Success r1 b1 :: rest) in
  (exists initiate put,
      sent run = [initiate; put] /\
      method put = PUT /\
      payload put = blob_bytes blob /\
      req_headers put =
        [("Authorization", HString (authHeader this));
         ("Content-Length", HNumber given);
         ("Content-Type", HString "application/octet-stream")]) /\
  (exists result,
      promise run = Some (Resolved result) /\ contentLength result = given).
Proof.
  intros Hgiven Hdigest Huuid H201.
  assert (Hlength : known_length blob (Some given) = Some given).
  { destruct blob; cbn; [|reflexivity]. now destruct given. }
  assert (Htruthy : truthy_number (Some given) = true) by now destruct given.
  cbn zeta. unfold upload. rewrite Hlength, Hdigest, Htruthy. cbn.
  rewrite Huuid. cbn. rewrite H201. cbn. split.
  - do 2 eexists. repeat split.
  - eexists. split; [reflexivity|]. cbn. lia.
Qed.

(** Three bytes announced as five. *)
Lemma upload_monolithic_trusts_given_length_sample :
  exists result,
    promise (upload client (BufferBlob (Buffer_from "abc")) (Some 5) None
               [started; ok 201]) = Some (Resolved result) /\
    contentLength result = 5.
Proof.
  assert (Huuid : truthy_string
                    (headers {| statusCode := 202;
                                headers := {[ "docker-upload-uuid" := "session-1" ]} |}
                     !! "docker-upload-uuid") = true)
    by (vm_compute; reflexivity).
  apply (proj2 (upload_monolithic_trusts_given_length client
                  (BufferBlob (Buffer_from "abc")) 5 None
                  _ [] {| statusCode := 201; headers := ∅ |} [] []
                  ltac:(discriminate) eq_refl Huuid eq_refl)).
Defined.

(** ** More on blob *)

Section Fetching.
Context `{Platform}.
Variable this : RegistryClient.

(** The invariant of [fetch]: counted from a call with the counter at
    [loop], at most [5 - loop] requests follow. *)
Lemma fetch_bounded (stream : bool) (inbox : list Reply) :
  forall (loop : nat) (url : string),
    (loop <= 5)%nat ->
    let run := fetch this stream inbox loop url in
    (length (sent run) + loop <= 5)%nat /\
    uncaught run = None /\
    (promise run = None -> length (sent run) = S (length inbox)) /\
    (5 <= loop + length inbox -> promise run <> None)%nat.
Proof.
  induction inbox as [|reply inbox IH]; intros loop url Hloop; cbn zeta.
  - cbn. destruct (Nat.eqb_spec loop 5) as [->|Hne]; cbn.
    + repeat split; try lia; discriminate.
    + destruct stream; cbn; repeat split; lia.
  - cbn [fetch]. destruct (Nat.eqb_spec loop 5) as [->|Hne].
    { cbn. repeat split; try lia; discriminate. }
    assert (Hnext : (S loop <= 5)%nat) by lia.
    destruct reply as [e|res body].
    { destruct stream; cbn; repeat split; try lia; discriminate. }
    destruct stream; cbn;
      (destruct (truthy_string (headers res !! "location"));
       [ destruct (IH (S loop) (url_resolve url (to_string (headers res !! "location")))
                     Hnext) as (Hsent & Huncaught & Hpending & Hsettles);
         repeat split; [lia|assumption|intros Hnone; now rewrite Hpending|];
         intros Hfive; apply Hsettles; lia
       | destruct (negb (statusCode res =? 200)); cbn;
         repeat split; try lia; discriminate ]).
Qed.

(** Streaming or not, [fetch] makes the same requests and ends in the same
    state. *)
Lemma fetch_modes (inbox : list Reply) :
  forall (loop : nat) (url : string),
    sent (fetch this true inbox loop url) = sent (fetch this false inbox loop url) /\
    state (promise (fetch this true inbox loop url)) =
    state (promise (fetch this false inbox loop url)).
Proof.
  induction inbox as [|reply inbox IH]; intros loop url.
  - cbn. destruct (loop =? 5)%nat; split; reflexivity.
  - cbn [fetch]. destruct (loop =? 5)%nat; [split; reflexivity|].
    destruct reply as [e|res body]; cbn; [split; reflexivity|].
    destruct (truthy_string (headers res !! "location")).
    + destruct (IH (S loop) (url_resolve url (to_string (headers res !! "location"))))
        as (Hsent & Hstate).
      now rewrite Hsent, Hstate.
    + destruct (negb (statusCode res =? 200)); split; reflexivity.
Qed.

Lemma fetch_authorized (stream : bool) (inbox : list Reply) :
  forall (loop : nat) (url : string),
    Forall (authorized this) (sent (fetch this stream inbox loop url)).
Proof.
  induction inbox as [|reply inbox IH]; intros loop url.
  - cbn. destruct (loop =? 5)%nat; [constructor|].
    destruct stream; repeat constructor.
  - cbn [fetch]. destruct (loop =? 5)%nat; [constructor|].
    destruct reply as [e|res body].
    { destruct stream; repeat constructor. }
    destruct stream; cbn;
      (destruct (truthy_string (headers res !! "location"));
       [ constructor; [reflexivity|apply IH]
       | destruct (negb (statusCode res =? 200)); repeat constructor ]).
Qed.

End Fetching.

(** X12: [blob] issues at most five requests, whatever the transport
    answers; no exception escapes its callbacks; its promise stays pending
    only when the transport left the last request unanswered, so five
    replies always settle it. *)
Theorem blob_at_most_five_requests `{Platform} (this : RegistryClient)
    (digest : string) (stream : bool) (inbox : list Reply) :
  let run := blob this digest stream inbox in
  (length (sent run) <= 5)%nat /\
  uncaught run = None /\
  (promise run = None -> length (sent run) = S (length inbox)) /\
  (5 <= length inbox -> promise run <> None)%nat.
Proof.
  cbn zeta. unfold blob.
  destruct (fetch_bounded this stream inbox 0
              ("https://" +:+ _registry this +:+ "/v2/" +:+ _repository this +:+
               "/blobs/" +:+ digest))
    as (Hsent & Huncaught & Hpending & Hsettles); [lia|].
  repeat split; try assumption. lia.
Qed.

(** X13: asking for a stream changes what [blob] resolves with, not what
    it does: with and without [stream] it sends the same requests, and its
    promise ends pending, resolved or rejected alike. *)
Theorem blob_stream_flag_keeps_requests `{Platform} (this : RegistryClient)
    (digest : string) (inbox : list Reply) :
  sent (blob this digest true inbox) = sent (blob this digest false inbox) /\
  state (promise (blob this digest true inbox)) =
  state (promise (blob this digest false inbox)).
Proof. unfold blob. apply fetch_modes. Qed.

(** X14: after up to four redirects, an error of the transport rejects
    the promise of [blob] with that error, and a response without location
    whose status is not 200 rejects it with the unexpected-status error;
    either way one request was made per reply consumed. *)
Theorem blob_fails_after_redirects `{Platform} (this : RegistryClient)
    (digest : string) (stream : bool) (chain : list Reply)
    (reply : Reply) (rest : list Reply) :
  Forall (fun r => is_redirect r = true) chain ->
  (length chain <= 4)%nat ->
  let run := blob this digest stream (chain ++ reply :: rest) in
  (forall e, reply = Failure e -> promise run = Some (Rejected e)) /\
  (forall res body,
      reply = Success res body ->
      truthy_string (headers res !! "location") = false ->
      statusCode res <> 200 ->
      promise run =
      Some (Rejected
              (unexpected_status res
                 (if stream then " streaming blob"
                  else " " +:+ Buffer_toString body)))) /\
  (is_redirect reply = false -> length (sent run) = S (length chain)).
Proof.
  intros Hchain Hlength. cbn zeta. unfold blob.
  set (start := "https://" +:+ _registry this +:+ "/v2/" +:+ _repository this +:+
                "/blobs/" +:+ digest).
  destruct (fetch_chain this stream chain (reply :: rest) 0 start Hchain)
    as (Hsent & Hpromise & _); [cbn; lia|].
  rewrite Hsent, Hpromise. cbn [Nat.add].
  assert (Hloop : (length chain =? 5)%nat = false) by (apply Nat.eqb_neq; lia).
  split; [|split].
  - intros e ->. cbn [fetch]. rewrite Hloop. now destruct stream.
  - intros res body -> Hlocation Hstatus. apply Z.eqb_neq in Hstatus.
    cbn [fetch]. rewrite Hloop.
    destruct stream; cbn; now rewrite Hlocation, Hstatus.
  - intros Hlast. rewrite length_app, length_map, length_visited.
    cbn [fetch]. rewrite Hloop.
    destruct reply as [e|res body]; [destruct stream; cbn; lia|].
    cbn in Hlast.
    destruct stream; cbn; rewrite Hlast;
      destruct (negb (statusCode res =? 200)); cbn; lia.
Qed.

(** Two redirects and then a 404. *)
Lemma blob_fails_after_redirects_sample :
  promise (blob client "sha256:abc" false (two_redirects ++ [with_body 404 "gone"])) =
  Some (Rejected (Error "unexpected status code 404 gone")).
Proof.
  apply (proj1 (proj2 (blob_fails_after_redirects client "sha256:abc" false
                         two_redirects (with_body 404 "gone") []
                         ltac:(repeat constructor) ltac:(cbn; lia)))
           {| statusCode := 404; headers := ∅ |} (Buffer_from "gone")).
  - reflexivity.
  - vm_compute. reflexivity.
  - discriminate.
Defined.

(** ** Credentials and digests *)

Lemma upload_authorized (this : RegistryClient) (blob : Blob)
    (contentLength : option Z) (digest : option string) (inbox : list Reply) :
  Forall (authorized this) (sent (upload this blob contentLength digest inbox)).
Proof.
  unfold upload.
  destruct inbox as [|[e0|r0 b0] inbox]; cbn; try (repeat constructor).
  destruct (truthy_string (headers r0 !! "docker-upload-uuid")); cbn;
    [|constructor].
  destruct (truthy_number (known_length blob contentLength) &&
            truthy_string (known_digest blob digest)).
  - destruct inbox as [|[e1|r1 b1] inbox]; cbn; try (repeat constructor).
    destruct (negb (statusCode r1 =? 201)); repeat constructor.
  - rewrite chunked_hash_and_count.
    destruct inbox as [|[e1|r1 b1] inbox]; cbn; try (repeat constructor).
    destruct (negb (statusCode r1 =? 204)); cbn; [constructor|].
    destruct inbox as [|[e2|r2 b2] inbox]; cbn; try (repeat constructor).
    destruct (negb (statusCode r2 =? 201)); repeat constructor.
Qed.

(** X15: every request any method issues carries the [Authorization]
    header of the client, the requests [blob] sends to the locations it is
    redirected to included. *)
Theorem every_request_is_authorized `{Platform} (this : RegistryClient)
    (name digest fromRepository : string) (tag : Tag) (body : Manifest)
    (blob_ : Blob) (contentLength : option Z) (given : option string)
    (stream : bool) (inbox : list Reply) :
  Forall (authorized this) (sent (tags this inbox)) /\
  Forall (authorized this) (sent (manifest this name inbox)) /\
  Forall (authorized this) (sent (manifestUpload this tag body inbox)) /\
  Forall (authorized this) (sent (blobExists this digest inbox)) /\
  Forall (authorized this) (sent (blob this digest stream inbox)) /\
  Forall (authorized this) (sent (upload this blob_ contentLength given inbox)) /\
  Forall (authorized this) (sent (mount this digest fromRepository inbox)).
Proof.
  assert (Hone : forall A (r : Request)
                   (k : option JsError -> option Response -> option Buffer ->
                        list Reply -> Run A),
             authorized this r ->
             (forall err res b rest, sent (k err res b rest) = []) ->
             Forall (authorized this) (sent (request r inbox k))).
  { intros A r k Hr Hk. destruct inbox as [|[e|res b] rest]; cbn;
      rewrite ?Hk; repeat constructor; exact Hr. }
  split; [|split; [|split; [|split; [|split; [|split]]]]].
  - apply Hone; [reflexivity|]. intros [e|] res b rest; [reflexivity|].
    now destruct (JSON_parse (Buffer_to_string b)).
  - apply Hone; [reflexivity|]. intros [e|] res b rest; [reflexivity|].
    destruct (JSON_parse (Buffer_to_string b)) as [|parsed]; [reflexivity|].
    destruct res as [res|]; [|reflexivity].
    destruct (statusCode res =? 200); [|reflexivity].
    destruct (get_property parsed "config") as [|config]; [reflexivity|].
    now destruct (truthy config).
  - apply Hone; [reflexivity|]. intros [e|] [res|] b rest; try reflexivity.
    now destruct (negb (statusCode res =? 200) && negb (statusCode res =? 201)).
  - apply Hone; [reflexivity|]. now intros [e|] [res|] b rest.
  - apply fetch_authorized.
  - apply upload_authorized.
  - apply Hone; [reflexivity|]. intros [e|] [res|] b rest; try reflexivity.
    now destruct (negb (statusCode res =? 201)).
Qed.

Lemma round_length (s : list Z) (kw : Z * Z) :
  length (SHA256.round s kw) = length s.
Proof.
  destruct s as [|a [|b [|c [|d [|e [|f [|g [|h [|i t]]]]]]]]]; reflexivity.
Qed.

Lemma rounds_length (kws : list (Z * Z)) :
  forall s, length (fold_left SHA256.round kws s) = length s.
Proof.
  induction kws as [|kw kws IH]; intros s; cbn [fold_left]; [reflexivity|].
  now rewrite IH, round_length.
Qed.

Lemma compress_length (hs block : list Z) :
  length (SHA256.compress hs block) = length hs.
Proof.
  unfold SHA256.compress.
  rewrite length_map, length_combine, rounds_length. lia.
Qed.

Lemma digest_words_length (msg : list Z) :
  length (SHA256.digest_words msg) = 8%nat.
Proof.
  unfold SHA256.digest_words.
  generalize (SHA256.blocks
                (length (SHA256.words (SHA256.pad msg)) / 16)
                (SHA256.words (SHA256.pad msg))).
  intros bs. change 8%nat with (length SHA256.H0).
  generalize SHA256.H0. induction bs as [|b bs IH]; intros hs; cbn [fold_left];
    [reflexivity|].
  now rewrite IH, compress_length.
Qed.

(** Whatever the message, SHA-256 is 32 bytes. *)
Lemma sha256_length (msg : Buffer) : length (SHA256.sha256 msg) = 32%nat.
Proof.
  unfold SHA256.sha256. rewrite length_map.
  pose proof (digest_words_length (map byte_to_Z msg)) as Hwords.
  destruct (SHA256.digest_words (map byte_to_Z msg))
    as [|a [|b [|c [|d [|e [|f [|g [|h [|i t]]]]]]]]]; try discriminate.
  reflexivity.
Qed.

Lemma hex_length (b : Buffer) : String.length (hex b) = (2 * length b)%nat.
Proof.
  induction b as [|x b IH]; cbn [hex String.length length]; [reflexivity|].
  rewrite IH. lia.
Qed.

Lemma hex_lower (b : Buffer) : all_chars lower_hex (hex b) = true.
Proof.
  induction b as [|x b IH]; [reflexivity|].
  cbn [hex all_chars]. rewrite IH.
  destruct x; reflexivity.
Qed.

(** The digest the client computes over any bytes has the textual form of
    a digest. *)
Lemma local_digest_form (b : Buffer) :
  exists h,
    "sha256:" +:+ hex (SHA256.sha256 b) = "sha256:" +:+ h /\
    String.length h = 64%nat /\
    all_chars lower_hex h = true.
Proof.
  exists (hex (SHA256.sha256 b)). split; [reflexivity|]. split.
  - now rewrite hex_length, sha256_length.
  - apply hex_lower.
Qed.

Lemma manifestUpload_resolved_digest `{Platform} (this : RegistryClient)
    (tag : Tag) (manifest : Manifest) (inbox : list Reply)
    (result : ManifestUploadResult) :
  promise (manifestUpload this tag manifest inbox) = Some (Resolved result) ->
  mu_digest result = "sha256:" +:+ hex (SHA256.sha256 (manifestBuf manifest)).
Proof.
  destruct inbox as [|[err|res body] rest]; cbn; try discriminate.
  destruct (negb (statusCode res =? 200) && negb (statusCode res =? 201));
    cbn; [discriminate|].
  now intros [= <-].
Qed.

(** X16: the digest [manifestUpload] resolves with, and the digest a
    chunked [upload] resolves with, is always well formed: [sha256:]
    followed by 64 lower-case hexadecimal digits. *)
Theorem resolved_digests_are_well_formed `{Platform} (this : RegistryClient)
    (tag : Tag) (manifest : Manifest) (blob : Blob)
    (contentLength : option Z) (given : option string) (inbox : list Reply) :
  (forall result,
      promise (manifestUpload this tag manifest inbox) = Some (Resolved result) ->
      exists h,
        mu_digest result = "sha256:" +:+ h /\
        String.length h = 64%nat /\ all_chars lower_hex h = true) /\
  (forall result,
      truthy_number (known_length blob contentLength) &&
      truthy_string (known_digest blob given) = false ->
      promise (upload this blob contentLength given inbox) = Some (Resolved result) ->
      exists h,
        digest result = "sha256:" +:+ h /\
        String.length h = 64%nat /\ all_chars lower_hex h = true).
Proof.
  split.
  - intros result Hresolved.
    rewrite (manifestUpload_resolved_digest this tag manifest inbox result Hresolved).
    apply local_digest_form.
  - intros result Hchunked Hresolved.
    destruct (upload_chunked_resolved this blob contentLength given inbox result
                Hchunked Hresolved)
      as (? & ? & ? & ? & ? & ? & ? & ? & ? & ? & _ & _ & _ & _ & _ & _ & _ & _ & ->).
    apply local_digest_form.
Qed.

(** ** Buffers and failing steps of upload *)

(** X17: a non-empty [Buffer] uploaded without length and digest goes the
    monolithic way: after the initiate request one PUT carries the buffer,
    its byte length as [Content-Length] and its SHA-256 in [digest=]; no
    third request follows, and on 201 the result holds the byte length. *)
Theorem upload_nonempty_buffer_is_monolithic (this : RegistryClient) (b : Buffer)
    (r0 : Response) (b0 : Buffer) (r1 : Response) (b1 : Buffer) (rest : list Reply) :
  b <> [] ->
  truthy_string (headers r0 !! "docker-upload-uuid") = true ->
  let run :=
    upload this (BufferBlob b) None None (Success r0 b0 :: Success r1 b1 :: rest) in
  (exists initiate put,
      sent run = [initiate; put] /\
      method put = PUT /\
      payload put = b /\
      url put =
        upload_url this (headers r0 !! "docker-upload-uuid") +:+
        "?digest=" +:+ "sha256:" +:+ hex (SHA256.sha256 b) /\
      In ("Content-Length", HNumber (Buffer_length b)) (req_headers put)) /\
  (statusCode r1 = 201 ->
   exists result,
     promise run = Some (Resolved result) /\
     contentLength result = Buffer_length b).
Proof.
  intros Hne Huuid. cbn zeta. unfold upload.
  destruct b as [|x b]; [contradiction|].
  cbn. rewrite Huuid. cbn. split.
  - destruct (negb (statusCode r1 =? 201)); cbn;
      do 2 eexists; repeat split; cbn; auto.
  - intros ->. cbn. eexists. split; [reflexivity|]. cbn.
    unfold Buffer_length. cbn [length]. lia.
Qed.

(** The bytes [abc], accepted. *)
Lemma upload_nonempty_buffer_sample :
  exists result,
    promise (upload client (BufferBlob (Buffer_from "abc")) None None
               [started; ok 201]) = Some (Resolved result) /\
    contentLength result = Buffer_length (Buffer_from "abc").
Proof.
  assert (Huuid : truthy_string
                    (headers {| statusCode := 202;
                                headers := {[ "docker-upload-uuid" := "session-1" ]} |}
                     !! "docker-upload-uuid") = true)
    by (vm_compute; reflexivity).
  apply (proj2 (upload_nonempty_buffer_is_monolithic client (Buffer_from "abc")
                  _ [] {| statusCode := 201; headers := ∅ |} [] []
                  ltac:(discriminate) Huuid)).
  reflexivity.
Defined.

(** X18: an error of the transport on the initiate request, on the
    monolithic PUT or on the finalize PUT rejects the promise of [upload]
    with that error; nothing escapes the callback and no further request
    is made. *)
Theorem upload_transport_error_rejects (this : RegistryClient) (blob : Blob)
    (contentLength : option Z) (digest : option string)
    (e : JsError) (r0 : Response) (b0 : Buffer) (r1 : Response) (b1 : Buffer)
    (rest : list Reply) :
  let go := upload this blob contentLength digest in
  let known := truthy_number (known_length blob contentLength) &&
               truthy_string (known_digest blob digest) in
  let rejected (run : Run UploadResult) (requests : nat) :=
    promise run = Some (Rejected e) /\ uncaught run = None /\
    length (sent run) = requests in
  rejected (go (Failure e :: rest)) 1%nat /\
  (truthy_string (headers r0 !! "docker-upload-uuid") = true ->
   (known = true ->
    rejected (go (Success r0 b0 :: Failure e :: rest)) 2%nat) /\
   (known = false -> statusCode r1 = 204 ->
    rejected (go (Success r0 b0 :: Success r1 b1 :: Failure e :: rest)) 3%nat)).
Proof.
  cbn zeta. split; [repeat split|]. intros Huuid. unfold upload. cbn.
  rewrite Huuid. cbn. split; intros ->; [repeat split|].
  intros H204. rewrite chunked_hash_and_count. cbn. rewrite H204.
  repeat split.
Qed.
